(** * The resilient request and batch engine of the advanced Python client

    A shallow embedding of [examples/python/advanced_client.py]: the
    statistics dataclass [ClientStats], the request executor
    [_make_request] together with the tenacity [@retry] decorator that wraps
    it, the payload builders [search_knowledge] and [process_knowledge], and
    the batch dispatcher [process_batch].

    Conventions of the embedding.
    - Python exceptions are values of [exn]; a Python expression that may
      raise evaluates to an [outcome].
    - The client object, the wall clock read by [time.time()] and the HTTP
      traffic are threaded explicitly as a [world].
    - Python floats ([total_time], clock readings, thresholds) are idealised
      as exact rationals [Q]; no rounding error is modelled.
    - The HTTP transport is a function from the number of exchanges already
      performed and the request to the result of the exchange.
    - A call of the decorated method makes its attempts one after the
      other: those of the retry loop, and those of the nested call that
      resubmits after a 429.  [fuel] bounds their number, hence the nesting,
      which the interpreter bounds by its recursion limit; [None] says that
      the bound was reached: what the interpreter does beyond its limit is
      not described.  The event loop of the batch is driven by a [fuel]
      counter of rounds.
    - [None] is also the result of [int] on strings whose conversion depends
      on the interpreter (its Unicode tables, its limit on the number of
      digits): a call that meets such a string is not described either. *)

From Stdlib Require Import ZArith QArith Lqa String Ascii List Lia DecimalString Bool.
From stdpp Require Import base list gmap sets.

Local Open Scope Z_scope.
#[local] Set Warnings "-register-all".

(** ** Python values *)

(** Values exchanged as JSON documents.  A [dict] keeps its insertion order,
    as Python dictionaries do. *)
Inductive json : Type :=
| JNull
| JBool (b : bool)
| JInt (n : Z)
| JFloat (q : Q)
| JStr (s : string)
| JArr (xs : list json)
| JObj (kvs : list (string * json)).

(** Exceptions that can travel through the client.  [ClientError],
    [ClientResponseError] belong to the [aiohttp.ClientError] family;
    [RuntimeError prefix arg] stands for [RuntimeError(f"{prefix}{arg}")],
    the interpolated value kept as it is; [ValueError lit] is what [int(lit)]
    raises on a malformed literal (and what [asyncio.Semaphore] raises on a
    negative value); [AttributeError v] is raised by [v.get]
    when [v] is not a dictionary; [RetryError e] is tenacity's wrapper around
    the exception of the last attempt; [OverflowError] is raised when an
    integer too large for a float is converted to one; [TypeError] is raised
    by subscripting an object that has no items.  [CancelledError]
    ([asyncio.CancelledError], thrown into a coroutine whose task is
    cancelled) and [KeyboardInterrupt] derive from [BaseException] and not
    from [Exception]. *)
Inductive exn : Type :=
| ClientError (detail : string)
| TimeoutError
| ClientResponseError (status : Z) (message : json)
| RuntimeError (prefix : string) (arg : json)
| ValueError (detail : string)
| AttributeError (receiver : json)
| RetryError (last_attempt : exn)
| OverflowError
| TypeError
| CancelledError
| KeyboardInterrupt.

(** [isinstance(e, Exception)]: what an [except Exception] clause catches. *)
Definition is_Exception (e : exn) : bool :=
  match e with
  | CancelledError | KeyboardInterrupt => false
  | _ => true
  end.

Inductive outcome (A : Type) : Type :=
| Return (a : A)
| Raise (e : exn).
Arguments Return {A} a.
Arguments Raise {A} e.

#[global] Instance outcome_ret : MRet outcome := fun A a => Return a.
#[global] Instance outcome_bind : MBind outcome := fun A B f m =>
  match m with
  | Return a => f a
  | Raise e => Raise e
  end.

(** *** Dictionaries *)

Fixpoint dict_lookup (key : string) (kvs : list (string * json)) : option json :=
  match kvs with
  | [] => None
  | (k, v) :: rest => if String.eqb k key then Some v else dict_lookup key rest
  end.

(** [d[key] = v]: overwrite in place when the key exists, append otherwise. *)
Fixpoint dict_set (key : string) (v : json) (kvs : list (string * json))
  : list (string * json) :=
  match kvs with
  | [] => [(key, v)]
  | (k, v0) :: rest =>
      if String.eqb k key then (k, v) :: rest else (k, v0) :: dict_set key v rest
  end.

(** [receiver.get(key, default)] *)
Definition py_get (receiver : json) (key : string) (default : json) : outcome json :=
  match receiver with
  | JObj kvs =>
      Return (match dict_lookup key kvs with Some v => v | None => default end)
  | _ => Raise (AttributeError receiver)
  end.

(** Truth value of a Python object, as tested by [if x] and [not x]. *)
Definition truthy (v : json) : bool :=
  match v with
  | JNull => false
  | JBool b => b
  | JInt n => negb (n =? 0)
  | JFloat q => negb (Qeq_bool q 0)
  | JStr s => negb (String.eqb s "")
  | JArr xs => match xs with [] => false | _ => true end
  | JObj kvs => match kvs with [] => false | _ => true end
  end.

(** [str(n)] for an integer. *)
Definition str_int (n : Z) : string := NilZero.string_of_int (Z.to_int n).

(** *** [int(s)] on a string

    Whitespace around the literal is skipped (the six ASCII characters that
    C calls spaces: tab, line feed, vertical tab, form feed, carriage return
    and the space itself), one sign is allowed, and the digits may be grouped
    by single underscores.  This is the conversion of an ASCII string.  A
    string with a character outside ASCII is first rewritten by the
    interpreter with its Unicode tables (other digits, other spaces), and a
    string of more than [max_str_digits] digits is converted or refused
    depending on the limit the interpreter is run with: in both cases the
    result is left undetermined, [None]. *)

Definition is_space (c : ascii) : bool :=
  let n := nat_of_ascii c in
  ((9 <=? n) && (n <=? 13) || (n =? 32))%nat.

Definition digit_of (c : ascii) : option Z :=
  let n := nat_of_ascii c in
  if ((48 <=? n) && (n <=? 57))%nat then Some (Z.of_nat n - 48) else None.

Fixpoint is_ascii (s : string) : bool :=
  match s with
  | EmptyString => true
  | String c rest => (nat_of_ascii c <? 128)%nat && is_ascii rest
  end.

Fixpoint count_digits (s : string) : nat :=
  match s with
  | EmptyString => O
  | String c rest =>
      ((match digit_of c with Some _ => 1 | None => 0 end) + count_digits rest)%nat
  end.

(** The default of [sys.get_int_max_str_digits()]. *)
Definition max_str_digits : nat := 4300.

Fixpoint lstrip (s : string) : string :=
  match s with
  | EmptyString => EmptyString
  | String c rest => if is_space c then lstrip rest else s
  end.

Fixpoint rstrip (s : string) : string :=
  match s with
  | EmptyString => EmptyString
  | String c rest =>
      match rstrip rest with
      | EmptyString => if is_space c then EmptyString else String c EmptyString
      | kept => String c kept
      end
  end.

(** [after_digit] tells whether the previous character was a digit: an
    underscore is accepted only between two digits. *)
Fixpoint int_digits (acc : Z) (after_digit : bool) (s : string) : option Z :=
  match s with
  | EmptyString => if after_digit then Some acc else None
  | String c rest =>
      match digit_of c with
      | Some d => int_digits (10 * acc + d) true rest
      | None =>
          if Ascii.eqb c "_" && after_digit then int_digits acc false rest
          else None
      end
  end.

Definition py_int (s : string) : option (outcome Z) :=
  if is_ascii s && (count_digits s <=? max_str_digits)%nat then
    let parsed :=
      match rstrip (lstrip s) with
      | String "-" rest => option_map Z.opp (int_digits 0 false rest)
      | String "+" rest => int_digits 0 false rest
      | t => int_digits 0 false t
      end in
    match parsed with
    | Some n => Some (Return n)
    | None => Some (Raise (ValueError s))
    end
  else None.

(** ** [ClientStats] *)

Record ClientStats : Type := {
  requests : Z;
  errors : Z;
  total_time : Q;
  retries : Z
}.

(** [ClientStats()]: every field at its default. *)
Definition ClientStats_new : ClientStats :=
  {| requests := 0; errors := 0; total_time := 0%Q; retries := 0 |}.

Inductive arith_error : Type := ZeroDivisionError.

(** [a / b] on numbers: raises [ZeroDivisionError] when [b] is zero. *)
Definition py_truediv (a b : Q) : arith_error + Q :=
  if Qeq_bool b 0 then inl ZeroDivisionError else inr (a / b)%Q.

Definition average_response_time (s : ClientStats) : arith_error + Q :=
  if 0 <? requests s then py_truediv (total_time s) (inject_Z (requests s))
  else inr 0%Q.

Definition error_rate (s : ClientStats) : arith_error + Q :=
  if 0 <? requests s then
    match py_truediv (inject_Z (errors s)) (inject_Z (requests s)) with
    | inr q => inr (q * 100)%Q
    | inl e => inl e
    end
  else inr 0%Q.

(** ** The client object, the clock and the transport *)

Record KnowledgeGraphAdvancedClient : Type := {
  base_url : string;
  timeout : Z;
  max_retries : Z;
  retry_delay : Q;
  api_key : option string;
  stats : ClientStats
}.

(** What [session.request(method, url, json=data)] is called with. *)
Record request : Type := {
  req_method : string;
  req_url : string;
  req_json : option json
}.

(** A response whose body has been read by [response.json()]. *)
Record response : Type := {
  status : Z;
  headers : list (string * string);
  body : json
}.

(** One HTTP exchange, as seen from inside the [try] block: either
    [session.request] or [response.json()] raised [e] after [elapsed]
    seconds, or a response arrived and was parsed after [elapsed] seconds. *)
Inductive exchange : Type :=
| Failed (elapsed : Q) (e : exn)
| Replied (elapsed : Q) (r : response).

Definition elapsed_of (ex : exchange) : Q :=
  match ex with Failed d _ => d | Replied d _ => d end.

(** [self], the reading of [time.time()], and the exchanges performed so
    far, most recent first. *)
Record world : Type := {
  self : KnowledgeGraphAdvancedClient;
  now : Q;
  log : list (request * exchange)
}.

Definition set_stats (f : ClientStats -> ClientStats) (w : world) : world :=
  let c := self w in
  {| self := {| base_url := base_url c; timeout := timeout c;
                max_retries := max_retries c; retry_delay := retry_delay c;
                api_key := api_key c; stats := f (stats c) |};
     now := now w; log := log w |}.

(** [self.stats.requests += 1] *)
Definition incr_requests : world -> world :=
  set_stats (fun s => {| requests := requests s + 1; errors := errors s;
                         total_time := total_time s; retries := retries s |}).

(** [self.stats.errors += 1] *)
Definition incr_errors : world -> world :=
  set_stats (fun s => {| requests := requests s; errors := errors s + 1;
                         total_time := total_time s; retries := retries s |}).

(** [self.stats.retries += 1] *)
Definition incr_retries : world -> world :=
  set_stats (fun s => {| requests := requests s; errors := errors s;
                         total_time := total_time s; retries := retries s + 1 |}).

(** [self.stats.total_time += duration] *)
Definition add_total_time (duration : Q) : world -> world :=
  set_stats (fun s => {| requests := requests s; errors := errors s;
                         total_time := (total_time s + duration)%Q;
                         retries := retries s |}).

(** The world once a sleep of [delay] seconds is over: a non-positive delay
    takes no time. *)
Definition slept (delay : Q) (w : world) : world :=
  {| self := self w;
     now := (now w + (if Qle_bool delay 0 then 0 else delay))%Q;
     log := log w |}.

(** The integers from [float_overflow_bound] on do not round to a finite
    double: converting one of them to a float raises [OverflowError]. *)
Definition float_overflow_bound : Z := 2 ^ 1024 - 2 ^ 970.

(** A positive delay is added to the clock of the event loop, a float. *)
Definition sleep_overflows (delay : Q) : bool :=
  negb (Qle_bool delay 0) && Qle_bool (inject_Z float_overflow_bound) delay.

(** [await asyncio.sleep(delay)] *)
Definition asyncio_sleep (delay : Q) (w : world) : outcome world :=
  if sleep_overflows delay then Raise OverflowError else Return (slept delay w).

(** Header names are matched without regard to case. *)
Definition lower_ascii (c : ascii) : ascii :=
  let n := nat_of_ascii c in
  if ((65 <=? n) && (n <=? 90))%nat then ascii_of_nat (n + 32) else c.

Fixpoint lower (s : string) : string :=
  match s with
  | EmptyString => EmptyString
  | String c rest => String (lower_ascii c) (lower rest)
  end.

Fixpoint headers_get (name : string) (hs : list (string * string)) : option string :=
  match hs with
  | [] => None
  | (k, v) :: rest =>
      if String.eqb (lower k) (lower name) then Some v else headers_get name rest
  end.

(** [int(response.headers.get('Retry-After', 60))] *)
Definition retry_after_of (r : response) : option (outcome Z) :=
  match headers_get "Retry-After" (headers r) with
  | Some v => py_int v
  | None => Some (Return 60)
  end.

(** [response_data.get('error', {}).get('message', default)] *)
Definition envelope_error_message (response_data default : json) : outcome json :=
  err ← py_get response_data "error" (JObj []);
  py_get err "message" default.

(** *** The retry policy of the decorator

    [@retry(stop=stop_after_attempt(3),
            wait=wait_exponential(multiplier=1, min=1, max=10),
            retry=retry_if_exception_type((aiohttp.ClientError,
                                           asyncio.TimeoutError)))] *)

Definition stop_after_attempt (max_attempt_number attempt_number : nat) : bool :=
  (max_attempt_number <=? attempt_number)%nat.

Definition wait_exponential (multiplier min max : Z) (attempt_number : nat) : Z :=
  Z.max (Z.max 0 min) (Z.min (multiplier * 2 ^ (Z.of_nat attempt_number - 1)) max).

(** [aiohttp.ClientResponseError] is a subclass of [aiohttp.ClientError]. *)
Definition retry_if_exception_type (e : exn) : bool :=
  match e with
  | ClientError _ | ClientResponseError _ _ | TimeoutError => true
  | _ => false
  end.

(** ** The request executor *)

Section Executor.

(** The collaborator: the [n]-th exchange of the session (counting from
    zero) answers request [req] with [transport n req]. *)
Variable transport : nat -> request -> exchange.

(** [async with self.session.request(method, url, json=data) as response:
     response_data = await response.json()] *)
Definition session_request (req : request) (w : world) : exchange * world :=
  let ex := transport (length (log w)) req in
  (ex, {| self := self w; now := (now w + elapsed_of ex)%Q;
          log := (req, ex) :: log w |}).

Definition request_for (w : world) (endpoint method : string)
    (data : option json) : request :=
  {| req_method := method;
     req_url := (base_url (self w) ++ endpoint)%string;
     req_json := data |}.

(** The [except Exception] handler of [_make_request]: an exception that
    is not an [Exception] goes past it. *)
Definition except_Exception (start_time : Q) (r : option (outcome json * world))
  : option (outcome json * world) :=
  match r with
  | Some (Raise e, w) =>
      if is_Exception e then
        let w := incr_errors w in
        let duration := (now w - start_time)%Q in
        let w := add_total_time duration w in
        Some (Raise e, w)
      else r
  | _ => r
  end.

(** The body of [_make_request], one attempt.  [resubmit] is
    [self._make_request(endpoint, method, data)], the decorated method
    called again from the rate-limit branch. *)
Definition _make_request_body
    (resubmit : world -> option (outcome json * world))
    (endpoint method : string) (data : option json) (w : world)
  : option (outcome json * world) :=
  let start_time := now w in
  let w := incr_requests w in
  except_Exception start_time
    (let '(ex, w) := session_request (request_for w endpoint method data) w in
     match ex with
     | Failed _ e => Some (Raise e, w)
     | Replied _ response =>
         let response_data := body response in
         let duration := (now w - start_time)%Q in
         let w := add_total_time duration w in
         if status response =? 429 then
           match retry_after_of response with
           | None => None
           | Some (Raise e) => Some (Raise e, w)
           | Some (Return retry_after) =>
               match asyncio_sleep (inject_Z retry_after) w with
               | Raise e => Some (Raise e, w)
               | Return w =>
                   let w := incr_retries w in
                   resubmit w
               end
           end
         else if 400 <=? status response then
           Some (error_msg ← envelope_error_message response_data
                               (JStr ("HTTP " ++ str_int (status response)));
                 Raise (ClientResponseError (status response) error_msg), w)
         else
           Some (success ← py_get response_data "success" (JBool true);
                 if negb (truthy success) then
                   error_msg ← envelope_error_message response_data
                                 (JStr "Unknown API error");
                   Raise (RuntimeError "API Error: " error_msg)
                 else py_get response_data "data" response_data, w)
     end).

(** The decorated method from attempt [attempt_number] on: run the body;
    an exception of the retried family either stops the loop with
    [RetryError] after the third attempt or is followed by a backoff sleep
    and another attempt; any other exception passes through, whether it is
    an [Exception] or not.  [fuel] bounds the attempts still to be made,
    those of the nested calls through [resubmit] included. *)
Fixpoint retrying (fuel : nat) (attempt_number : nat)
    (endpoint method : string) (data : option json) (w : world)
    {struct fuel} : option (outcome json * world) :=
  match fuel with
  | O => None
  | S fuel' =>
      match _make_request_body (retrying fuel' 1%nat endpoint method data)
              endpoint method data w with
      | None => None
      | Some (Return v, w') => Some (Return v, w')
      | Some (Raise e, w') =>
          if retry_if_exception_type e then
            if stop_after_attempt 3 attempt_number then
              Some (Raise (RetryError e), w')
            else
              match asyncio_sleep
                      (inject_Z (wait_exponential 1 1 10 attempt_number)) w' with
              | Raise e' => Some (Raise e', w')
              | Return w' =>
                  retrying fuel' (S attempt_number) endpoint method data w'
              end
          else Some (Raise e, w')
      end
  end.

(** [self._make_request(endpoint, method, data)] *)
Definition _make_request (fuel : nat) (endpoint method : string)
    (data : option json) (w : world) : option (outcome json * world) :=
  retrying fuel 1%nat endpoint method data w.

End Executor.

(** ** Payload builders of the facade *)

(** An [Optional[List[str]]] and an [Optional[str]] argument as Python
    values: [None] when omitted. *)
Definition of_str_list (xs : option (list string)) : json :=
  match xs with Some l => JArr (map JStr l) | None => JNull end.

Definition of_str (x : option string) : json :=
  match x with Some s => JStr s | None => JNull end.

(** [if value: data[key] = value] *)
Definition set_if_truthy (key : string) (value : json)
    (data : list (string * json)) : list (string * json) :=
  if truthy value then dict_set key value data else data.

(** The [data] dictionary built by [search_knowledge]. *)
Definition search_knowledge_data (query : string) (limit : Z) (threshold : Q)
    (types sources : option (list string)) : list (string * json) :=
  let data := [("query", JStr query); ("limit", JInt limit);
               ("threshold", JFloat threshold)]%string in
  let data := set_if_truthy "types" (of_str_list types) data in
  let data := set_if_truthy "sources" (of_str_list sources) data in
  data.

Section Facade.

Variable transport : nat -> request -> exchange.

(** [datetime.utcnow().isoformat()], as a function of the clock. *)
Variable utcnow_isoformat : Q -> string.

(** The [data] dictionary built by [process_knowledge] when the clock
    reads [clock]. *)
Definition process_knowledge_data (clock : Q) (text source : string)
    (thread_id conversation_date : option string)
    (include_concepts deduplicate : bool) (batch_id : option string)
  : list (string * json) :=
  let data := [("text", JStr text); ("source", JStr source);
               ("include_concepts", JBool include_concepts);
               ("deduplicate", JBool deduplicate)]%string in
  let data := set_if_truthy "thread_id" (of_str thread_id) data in
  let data :=
    if truthy (of_str conversation_date)
    then dict_set "conversation_date" (of_str conversation_date) data
    else dict_set "conversation_date"
           (JStr (utcnow_isoformat clock ++ "Z")) data in
  let data := set_if_truthy "processing_batch_id" (of_str batch_id) data in
  data.

Definition process_knowledge (fuel : nat) (text source : string)
    (thread_id conversation_date : option string)
    (include_concepts deduplicate : bool) (batch_id : option string)
    (w : world) : option (outcome json * world) :=
  _make_request transport fuel "/process-knowledge" "POST"
    (Some (JObj (process_knowledge_data (now w) text source thread_id
                   conversation_date include_concepts deduplicate batch_id))) w.

Definition search_knowledge (fuel : nat) (query : string) (limit : Z)
    (threshold : Q) (types sources : option (list string)) (w : world)
  : option (outcome json * world) :=
  _make_request transport fuel "/search-knowledge" "POST"
    (Some (JObj (search_knowledge_data query limit threshold types sources))) w.

End Facade.

(** ** Performance statistics of the facade *)

(** Round half to even, on exact rationals.  Python rounds the binary
    float that approximates the value, so that the last digit it keeps can
    differ from the one computed here; both give 0 on the zeros of fresh
    statistics. *)
Definition round_half_even (q : Q) : Z :=
  let n := Qnum q in
  let d := Zpos (Qden q) in
  let f := n / d in
  let r := n mod d in
  if 2 * r <? d then f
  else if d <? 2 * r then f + 1
  else if Z.even f then f else f + 1.

(** [round(q, ndigits)] *)
Definition py_round (q : Q) (ndigits : nat) : Q :=
  let scale := 10 ^ Z.of_nat ndigits in
  Qred (inject_Z (round_half_even (q * inject_Z scale)) / inject_Z scale).

Definition get_performance_stats (c : KnowledgeGraphAdvancedClient)
  : arith_error + list (string * json) :=
  match average_response_time (stats c), error_rate (stats c) with
  | inr avg, inr rate =>
      inr [("total_requests", JInt (requests (stats c)));
           ("total_errors", JInt (errors (stats c)));
           ("total_retries", JInt (retries (stats c)));
           ("average_response_time", JFloat (py_round (avg * 1000) 1));
           ("error_rate", JFloat (py_round rate 2));
           ("total_time", JFloat (py_round (total_time (stats c)) 2))]%string
  | inl e, _ => inl e
  | _, inl e => inl e
  end.

(** [self.stats = ClientStats()] *)
Definition reset_stats (c : KnowledgeGraphAdvancedClient)
  : KnowledgeGraphAdvancedClient :=
  {| base_url := base_url c; timeout := timeout c; max_retries := max_retries c;
     retry_delay := retry_delay c; api_key := api_key c;
     stats := ClientStats_new |}.

(** ** The batch dispatcher

    [process_batch] creates one task per item and awaits them with
    [asyncio.gather].  The event loop is modelled in rounds.  In a round
    every task that is inside [processor] advances by one suspension point;
    a task that completes leaves the [async with semaphore] block and
    releases its permit; then the tasks queued on the semaphore acquire the
    free permits in first-in first-out order and call [processor].

    A per-item operation is described by what the dispatcher can observe of
    it: [processor item index] gives the number of rounds the call stays
    suspended (zero when it completes without suspending) and how it
    completes. *)

Module Batch.
Section Dispatcher.

Context {A V E : Type}.

(** [str(e)] *)
Variable str : E -> string.

(** How [await processor(item, index)] ends: with a value, with an
    exception that is an instance of [Exception], or with one that is not
    and that the task keeps for [gather]: [asyncio.CancelledError] when the
    operation is cancelled, or an exception of another class that derives
    from [BaseException] only.  ([KeyboardInterrupt] and [SystemExit] are
    not kept by the task: they stop the event loop itself, and such a batch
    is not described.)  [str] gives the text of an exception. *)
Inductive completion : Type :=
| Returns (result : V)
| Raises (e : E)
| Escapes (b : E).

Variable processor : A -> nat -> nat * completion.

(** What [process_item] returns:
    [{'success': True, 'index': index, 'result': result}] or
    [{'success': False, 'index': index, 'error': str(e)}]. *)
Inductive item_dict : Type :=
| ItemSuccess (index : nat) (result : V)
| ItemFailure (index : nat) (error : string).

(** [result['success']] *)
Definition success (d : item_dict) : bool :=
  match d with ItemSuccess _ _ => true | ItemFailure _ _ => false end.

(** An element of the [errors] list: a failed item's dictionary, or
    [{'error': str(result)}] for an exception handed back by [gather]. *)
Inductive error_dict : Type :=
| OfItem (d : item_dict)
| OfException (error : string).

(** [{'results': results, 'errors': errors}] *)
Record BatchResult : Type := {
  results : list item_dict;
  errors : list error_dict
}.

(** One element of [batch_results]: with [return_exceptions=True] a task
    contributes either its return value or the exception that ended it,
    [Excepted] when that exception is an instance of [Exception] and
    [Escaped] when it is not. *)
Inductive gathered : Type :=
| Returned (d : item_dict)
| Excepted (e : E)
| Escaped (b : E).

(** The [try]/[except Exception] of [process_item], once [processor] has
    completed with [r]: the handler does not catch what is not an
    [Exception], which then ends the task. *)
Definition process_item_return (index : nat) (r : completion) : gathered :=
  match r with
  | Returns result => Returned (ItemSuccess index result)
  | Raises e => Returned (ItemFailure index (str e))
  | Escapes b => Escaped b
  end.

(** A task that has acquired the semaphore: still inside [processor] for
    [remaining] more rounds, or done. *)
Inductive task : Type :=
| Running (index : nat) (remaining : nat) (r : completion)
| Done (g : gathered).

(** The semaphore ([sem_value], [waiters]), the tasks that got past
    [acquire], in index order, and the calls made to [processor] so far. *)
Record event_loop : Type := {
  sem_value : nat;
  waiters : list (A * nat);
  tasks : list task;
  calls : list (A * nat)
}.

(** [asyncio.Semaphore(value)] *)
Definition Semaphore (value : Z) : outcome nat :=
  if value <? 0 then Raise (ValueError "Semaphore initial value must be >= 0")
  else Return (Z.to_nat value).

(** The queued tasks acquire the free permits in order.  Returns the
    value left, the tasks still queued, the tasks started and the calls
    made. *)
Fixpoint wake_up (value : nat) (queue : list (A * nat))
  : nat * list (A * nat) * list task * list (A * nat) :=
  match queue with
  | [] => (value, [], [], [])
  | (item, index) :: rest =>
      match value with
      | O => (O, queue, [], [])
      | S value' =>
          let '(ticks, r) := processor item index in
          match ticks with
          | O =>
              let '(v, q, started, called) := wake_up value rest in
              (v, q, Done (process_item_return index r) :: started,
               (item, index) :: called)
          | S _ =>
              let '(v, q, started, called) := wake_up value' rest in
              (v, q, Running index ticks r :: started, (item, index) :: called)
          end
      end
  end.

(** One round of a task; the second component is the number of permits
    it releases. *)
Definition advance (t : task) : task * nat :=
  match t with
  | Running index (S (S k)) r => (Running index (S k) r, O)
  | Running index _ r => (Done (process_item_return index r), 1%nat)
  | Done g => (Done g, O)
  end.

Definition round (st : event_loop) : event_loop :=
  let stepped := advance <$> tasks st in
  let value := (sem_value st + sum_list_with snd stepped)%nat in
  let '(value', queue, started, called) := wake_up value (waiters st) in
  {| sem_value := value'; waiters := queue;
     tasks := (fst <$> stepped) ++ started;
     calls := calls st ++ called |}.

Definition finished (t : task) : option gathered :=
  match t with Done g => Some g | Running _ _ _ => None end.

(** [batch_results] once every task is done. *)
Definition completed (st : event_loop) : option (list gathered) :=
  match waiters st with
  | [] => mapM finished (tasks st)
  | _ :: _ => None
  end.

(** [await asyncio.gather] over the tasks, with [return_exceptions=True]. *)
Fixpoint gather (fuel : nat) (st : event_loop)
  : option (list gathered * event_loop) :=
  match completed st with
  | Some batch_results => Some (batch_results, st)
  | None =>
      match fuel with
      | O => None
      | S fuel' => gather fuel' (round st)
      end
  end.

(** The loop [for result in batch_results] that fills [results] and
    [errors], up to the [return].  An exception that is not an instance of
    [Exception] fails the [isinstance] test and is then subscripted by
    [result['success']], which raises [TypeError]. *)
Fixpoint categorize (batch_results : list gathered)
    (results : list item_dict) (errors : list error_dict) : outcome BatchResult :=
  match batch_results with
  | [] => Return {| results := results; errors := errors |}
  | Excepted e :: rest =>
      categorize rest results (errors ++ [OfException (str e)])
  | Escaped b :: rest => Raise TypeError
  | Returned d :: rest =>
      if success d then categorize rest (results ++ [d]) errors
      else categorize rest results (errors ++ [OfItem d])
  end.

(** [enumerate(items)], item first. *)
Definition enumerate (items : list A) : list (A * nat) :=
  imap (fun i item => (item, i)) items.

(** The loop just after the tasks have been created. *)
Definition created (value : nat) (items : list A) : event_loop :=
  {| sem_value := value; waiters := enumerate items; tasks := []; calls := [] |}.

(** [process_batch(items, processor, concurrency)]: the result, and the
    calls made to [processor]. *)
Definition process_batch (fuel : nat) (items : list A) (concurrency : Z)
  : option (outcome BatchResult * list (A * nat)) :=
  match Semaphore concurrency with
  | Raise e => Some (Raise e, [])
  | Return value =>
      match gather fuel (created value items) with
      | None => None
      | Some (batch_results, st) =>
          Some (categorize batch_results [] [], calls st)
      end
  end.

(** The index recorded in an element of [results] or [errors]. *)
Definition index_of (d : item_dict) : nat :=
  match d with ItemSuccess i _ => i | ItemFailure i _ => i end.

Definition error_index (e : error_dict) : option nat :=
  match e with OfItem d => Some (index_of d) | OfException _ => None end.

Definition indices (b : BatchResult) : list nat :=
  (index_of <$> results b) ++ omap error_index (errors b).

End Dispatcher.
End Batch.

(** ** Construction of the client and the other operations of the facade *)

(** [s.rstrip('/')] *)
Fixpoint rstrip_slash (s : string) : string :=
  match s with
  | EmptyString => EmptyString
  | String c rest =>
      match rstrip_slash rest with
      | EmptyString => if Ascii.eqb c "/" then EmptyString else String c EmptyString
      | kept => String c kept
      end
  end.

(** The [headers] dictionary that [__init__] hands to the session. *)
Definition session_headers (api_key : option string) : list (string * json) :=
  let headers := [("Content-Type", JStr "application/json");
                  ("X-MCP-Version", JStr "2024-11-05");
                  ("User-Agent", JStr "KnowledgeGraph-Advanced-Python-Client/1.0.0")
                 ]%string in
  if truthy (of_str api_key)
  then dict_set "Authorization"
         (JStr ("Bearer " ++ match api_key with Some k => k | None => "" end)) headers
  else headers.

(** [KnowledgeGraphAdvancedClient(base_url, timeout, max_retries,
    retry_delay, api_key)]: the object, with fresh statistics. *)
Definition KnowledgeGraphAdvancedClient_new (base_url : string) (timeout max_retries : Z)
    (retry_delay : Q) (api_key : option string) : KnowledgeGraphAdvancedClient :=
  {| base_url := rstrip_slash base_url; timeout := timeout;
     max_retries := max_retries; retry_delay := retry_delay; api_key := api_key;
     stats := ClientStats_new |}.

(** [sep.join(xs)] *)
Fixpoint join (sep : string) (xs : list string) : string :=
  match xs with
  | [] => EmptyString
  | [x] => x
  | x :: rest => (x ++ sep ++ join sep rest)%string
  end.

(** [if xs: params.append(f"{name}={','.join(xs)}")] *)
Definition append_if_truthy (name : string) (xs : option (list string))
    (params : list string) : list string :=
  if truthy (of_str_list xs)
  then params ++ [(name ++ "=" ++ join "," (match xs with Some l => l | None => [] end))%string]
  else params.

(** The endpoint, query string included, that [get_entities] asks for. *)
Definition get_entities_endpoint (role : string) (min_occurrence limit : Z)
    (sort_by : string) (sources types : option (list string)) : string :=
  let params := [("role=" ++ role)%string;
                 ("min_occurrence=" ++ str_int min_occurrence)%string;
                 ("limit=" ++ str_int limit)%string;
                 ("sort_by=" ++ sort_by)%string] in
  let params := append_if_truthy "sources" sources params in
  let params := append_if_truthy "types" types params in
  let query_string := ("?" ++ join "&" params)%string in
  ("/entities" ++ query_string)%string.

Section Operations.

Variable transport : nat -> request -> exchange.

Definition health_check (fuel : nat) (w : world) : option (outcome json * world) :=
  _make_request transport fuel "/health" "GET" None w.

Definition search_concepts (fuel : nat) (query : string) (limit : Z) (threshold : Q)
    (w : world) : option (outcome json * world) :=
  _make_request transport fuel "/search-concepts" "POST"
    (Some (JObj [("query", JStr query); ("limit", JInt limit);
                 ("threshold", JFloat threshold)]%string)) w.

Definition store_triples (fuel : nat) (triples : list json) (w : world)
  : option (outcome json * world) :=
  _make_request transport fuel "/store-triples" "POST"
    (Some (JObj [("triples", JArr triples)]%string)) w.

Definition deduplicate_triples (fuel : nat) (triples : list json) (w : world)
  : option (outcome json * world) :=
  _make_request transport fuel "/deduplicate" "POST"
    (Some (JObj [("triples", JArr triples)]%string)) w.

Definition get_entities (fuel : nat) (role : string) (min_occurrence limit : Z)
    (sort_by : string) (sources types : option (list string)) (w : world)
  : option (outcome json * world) :=
  _make_request transport fuel
    (get_entities_endpoint role min_occurrence limit sort_by sources types)
    "GET" None w.

End Operations.

(** * Vocabulary of the statements *)

(** ** Attempts of one logical call, read off the log *)

(** A logged exchange that was followed by a resubmission: a 429 whose
    [Retry-After] could be turned into a number of seconds that could be
    slept. *)
Definition is_resubmitted (ex : exchange) : bool :=
  match ex with
  | Replied _ r =>
      (status r =? 429)
      && match retry_after_of r with
         | Some (Return n) => negb (sleep_overflows (inject_Z n))
         | _ => false
         end
  | Failed _ _ => false
  end.

Fixpoint count_resubmitted (entries : list (request * exchange)) : nat :=
  match entries with
  | [] => O
  | (_, ex) :: rest =>
      ((if is_resubmitted ex then 1 else 0) + count_resubmitted rest)%nat
  end.

(** Between [w] and [w'] the exchanges [new] were performed (most recent
    first), [requests] grew by their number and [retries] by the number of
    those that were resubmitted. *)
Definition accounted (w w' : world) (new : list (request * exchange)) : Prop :=
  log w' = new ++ log w
  /\ requests (stats (self w')) = requests (stats (self w)) + Z.of_nat (length new)
  /\ retries (stats (self w')) = retries (stats (self w)) + Z.of_nat (count_resubmitted new).

(** A call that completed is accounted for; it performed at least one
    exchange, and the last one was not resubmitted. *)
Definition settled (r : option (outcome json * world)) (w : world) : Prop :=
  forall o w', r = Some (o, w') ->
    exists last earlier,
      accounted w w' (last :: earlier) /\ is_resubmitted last.2 = false.

(** One attempt that failed with an [Exception], seen from outside: the
    exchange [entry] was logged, [requests] and [errors] grew by one,
    [retries] did not move. *)
Definition tracked (w w1 : world) (entry : request * exchange) : Prop :=
  base_url (self w1) = base_url (self w)
  /\ log w1 = entry :: log w
  /\ requests (stats (self w1)) = requests (stats (self w)) + 1
  /\ errors (stats (self w1)) = errors (stats (self w)) + 1
  /\ retries (stats (self w1)) = retries (stats (self w)).

(** ** Kinds of exchanges *)

(** The transport failed with an exception of the retried family (a network
    error or a timeout). *)
Definition is_transient_failure (ex : exchange) : bool :=
  match ex with
  | Failed _ e => retry_if_exception_type e
  | Replied _ _ => false
  end.

Definition transient_exception (ex : exchange) : option exn :=
  match ex with
  | Failed _ e => if retry_if_exception_type e then Some e else None
  | Replied _ _ => None
  end.

(** The generic message [f'HTTP {response.status}']. *)
Definition generic_http_message (r : response) : json :=
  JStr ("HTTP " ++ str_int (status r)).

(** The message of an HTTP error as the specification words it: the
    message of the error envelope when there is one, the generic string
    otherwise. *)
Definition http_error_message (r : response) : json :=
  match body r with
  | JObj kvs =>
      match dict_lookup "error" kvs with
      | Some (JObj e) =>
          match dict_lookup "message" e with
          | Some m => m
          | None => generic_http_message r
          end
      | _ => generic_http_message r
      end
  | _ => generic_http_message r
  end.

(** A reply with status at least 400 other than 429 whose body is a
    dictionary with no [error] entry or with a dictionary under [error]. *)
Definition is_http_error_reply (ex : exchange) : bool :=
  match ex with
  | Replied _ r =>
      (400 <=? status r) && negb (status r =? 429)
      && match body r with
         | JObj kvs =>
             match dict_lookup "error" kvs with
             | Some (JObj _) | None => true
             | Some _ => false
             end
         | _ => false
         end
  | Failed _ _ => false
  end.

Definition http_exception (ex : exchange) : option exn :=
  match ex with
  | Replied _ r =>
      if is_http_error_reply ex
      then Some (ClientResponseError (status r) (http_error_message r))
      else None
  | Failed _ _ => None
  end.

(** A reply with a status below 400 whose envelope says [success: false]
    and carries an error message. *)
Definition is_api_error_reply (ex : exchange) : bool :=
  match ex with
  | Replied _ r =>
      (status r <? 400)
      && match body r with
         | JObj kvs =>
             match dict_lookup "success" kvs, dict_lookup "error" kvs with
             | Some (JBool false), Some (JObj e) =>
                 match dict_lookup "message" e with Some _ => true | None => false end
             | _, _ => false
             end
         | _ => false
         end
  | Failed _ _ => false
  end.

(** A reply with a status below 400 whose envelope does not say
    [success: false]. *)
Definition is_success_reply (ex : exchange) : bool :=
  match ex with
  | Replied _ r =>
      (status r <? 400)
      && match body r with
         | JObj kvs =>
             truthy (match dict_lookup "success" kvs with
                     | Some v => v
                     | None => JBool true
                     end)
         | _ => false
         end
  | Failed _ _ => false
  end.

(** What the caller receives from such a reply: the [data] entry, or the
    whole envelope when there is none. *)
Definition payload_of (r : response) : json :=
  match body r with
  | JObj kvs =>
      match dict_lookup "data" kvs with Some v => v | None => body r end
  | _ => body r
  end.

(** The error message of such an envelope. *)
Definition api_error_message (r : response) : json :=
  match body r with
  | JObj kvs =>
      match dict_lookup "error" kvs with
      | Some (JObj e) =>
          match dict_lookup "message" e with Some m => m | None => JNull end
      | _ => JNull
      end
  | _ => JNull
  end.

(** ** Progress of the batch loop *)

Section BatchMeasures.

Context {A V E : Type}.
Variable str : E -> string.
Variable processor : A -> nat -> nat * @Batch.completion V E.

(** What a task that has acquired the semaphore will hand to [gather]. *)
Definition settle (t : @Batch.task V E) : Batch.gathered :=
  match t with
  | Batch.Running index _ r => Batch.process_item_return str index r
  | Batch.Done g => g
  end.

(** What a task still queued on the semaphore will hand to [gather]. *)
Definition settle_waiter (p : A * nat) : Batch.gathered :=
  Batch.process_item_return str p.2 (processor p.1 p.2).2.

(** The operation ended with an exception that is not an [Exception]. *)
Definition escapes (r : @Batch.completion V E) : bool :=
  match r with Batch.Escapes _ => true | _ => false end.

(** Permits held. *)
Definition running (t : @Batch.task V E) : nat :=
  match t with Batch.Running _ _ _ => 1 | Batch.Done _ => 0 end.

(** Rounds a task still needs. *)
Definition weight (t : @Batch.task V E) : nat :=
  match t with Batch.Running _ k _ => Nat.max k 1 | Batch.Done _ => 0 end.

Definition waiter_weight (p : A * nat) : nat := S (processor p.1 p.2).1.

Definition rounds_left (st : @Batch.event_loop A V E) : nat :=
  sum_list_with weight (Batch.tasks st)
  + sum_list_with waiter_weight (Batch.waiters st).

(** Rounds that are enough for a whole batch, whatever the limit: one per
    item plus the rounds its operation stays suspended. *)
Definition rounds_needed (items : list A) : nat :=
  sum_list_with waiter_weight (Batch.enumerate items).

(** The invariant of the loop under a semaphore created with [c] permits:
    free and held permits add up to [c], every task is headed for the
    outcome of its own item, and the calls made so far are those of the
    tasks that left the queue. *)
Record loop_inv (c : nat) (items : list A) (st : @Batch.event_loop A V E) : Prop := {
  inv_permits :
    (Batch.sem_value st + sum_list_with running (Batch.tasks st) = c)%nat;
  inv_results :
    (settle <$> Batch.tasks st) ++ (settle_waiter <$> Batch.waiters st)
    = settle_waiter <$> Batch.enumerate items;
  inv_calls : Batch.calls st ++ Batch.waiters st = Batch.enumerate items
}.

End BatchMeasures.

(** ** What a call leaves behind *)

(** The configuration of the client, everything but its statistics. *)
Definition same_config (c c' : KnowledgeGraphAdvancedClient) : Prop :=
  base_url c' = base_url c /\ timeout c' = timeout c
  /\ max_retries c' = max_retries c /\ retry_delay c' = retry_delay c
  /\ api_key c' = api_key c.

(** A call that went from [w] to [w'] with outcome [o]: the configuration
    is untouched, every exchange it performed carried the request [req],
    [requests] grew by the number of exchanges, [errors] grew by at most
    that number, and by at least one when the outcome is an exception that
    is an [Exception]. *)
Definition call_summary (req : request) (w : world) (o : outcome json) (w' : world)
  : Prop :=
  same_config (self w) (self w')
  /\ (exists new,
        log w' = new ++ log w
        /\ Forall (fun entry => entry.1 = req) new
        /\ requests (stats (self w')) = requests (stats (self w)) + Z.of_nat (length new))
  /\ errors (stats (self w)) <= errors (stats (self w'))
  /\ errors (stats (self w')) - errors (stats (self w))
     <= requests (stats (self w')) - requests (stats (self w))
  /\ (forall e, o = Raise e -> is_Exception e = true ->
        errors (stats (self w)) + 1 <= errors (stats (self w'))).

(** [through_decorator] tells whether the result is that of the decorated
    method, whose exceptions are never of the retried family, or of the bare
    body. *)
Definition summarized (through_decorator : bool) (req : request)
    (r : option (outcome json * world)) (w : world) : Prop :=
  forall o w', r = Some (o, w') ->
    call_summary req w o w'
    /\ (through_decorator = true ->
        forall e, o = Raise e -> retry_if_exception_type e = false).

(** The same world, for a client constructed with other values of
    [max_retries] and [retry_delay]. *)
Definition reconfigured (ceiling : Z) (delay : Q) (w : world) : world :=
  {| self := {| base_url := base_url (self w); timeout := timeout (self w);
                max_retries := ceiling; retry_delay := delay;
                api_key := api_key (self w); stats := stats (self w) |};
     now := now w; log := log w |}.

Definition reconfigured_result (ceiling : Z) (delay : Q)
    (r : option (outcome json * world)) : option (outcome json * world) :=
  match r with
  | Some (o, w') => Some (o, reconfigured ceiling delay w')
  | None => None
  end.

(** ** Time *)

(** The time spent inside the exchanges of a piece of the log. *)
Fixpoint elapsed_total (entries : list (request * exchange)) : Q :=
  match entries with
  | [] => 0%Q
  | (_, ex) :: rest => (elapsed_of ex + elapsed_total rest)%Q
  end.

(** The backoff slept after the attempts [a], [a + 1], ..., [a + j - 1]. *)
Fixpoint backoff_from (a j : nat) : Z :=
  match j with
  | O => 0
  | S j' => wait_exponential 1 1 10 a + backoff_from (S a) j'
  end.

(** ** More kinds of exchanges *)

(** An exchange after which the decorator tries again: a failure of the
    transport of the retried family, or an HTTP error reply. *)
Definition is_retried_failure (ex : exchange) : bool :=
  is_transient_failure ex || is_http_error_reply ex.

(** The value on which [.get] is called although it is not a dictionary,
    if any, while the envelope of a reply other than a 429 is read: the body
    itself, or its [error] entry when the status or the [success] flag makes
    the code look for the message. *)
Definition unreadable_part (r : response) : option json :=
  match body r with
  | JObj kvs =>
      if (400 <=? status r)
         || negb (truthy (match dict_lookup "success" kvs with
                          | Some v => v
                          | None => JBool true
                          end))
      then match dict_lookup "error" kvs with
           | Some (JObj _) | None => None
           | Some v => Some v
           end
      else None
  | b => Some b
  end.

(** A reply with a status below 400 whose envelope is falsy under
    [success] and has no error message to show. *)
Definition is_unexplained_api_error (ex : exchange) : bool :=
  match ex with
  | Replied _ r =>
      (status r <? 400)
      && match body r with
         | JObj kvs =>
             negb (truthy (match dict_lookup "success" kvs with
                           | Some v => v
                           | None => JBool true
                           end))
             && match dict_lookup "error" kvs with
                | None => true
                | Some (JObj e) =>
                    match dict_lookup "message" e with Some _ => false | None => true end
                | Some _ => false
                end
         | _ => false
         end
  | Failed _ _ => false
  end.

(** ** Strings *)

Fixpoint last_char (s : string) : option ascii :=
  match s with
  | EmptyString => None
  | String c EmptyString => Some c
  | String _ rest => last_char rest
  end.

(** [n] slashes. *)
Fixpoint slashes (n : nat) : string :=
  match n with
  | O => EmptyString
  | S n' => String "/" (slashes n')
  end.

(** The clock and the accumulated time did not go backwards between [w]
    and [w']. *)
Definition time_advanced (w w' : world) : Prop :=
  (now w <= now w')%Q
  /\ (total_time (stats (self w)) <= total_time (stats (self w')))%Q.

Definition advancing (r : option (outcome json * world)) (w : world) : Prop :=
  forall o w', r = Some (o, w') -> time_advanced w w'.

(** * Sample inputs *)

Definition fresh_client : KnowledgeGraphAdvancedClient :=
  {| base_url := "http://localhost:3000/api"; timeout := 30; max_retries := 3;
     retry_delay := 1; api_key := None; stats := ClientStats_new |}.

Definition fresh_world : world := {| self := fresh_client; now := 0; log := [] |}.

Definition ok_reply : response :=
  {| status := 200; headers := [];
     body := JObj [("success", JBool true); ("data", JStr "healthy")]%string |}.

(** HTTP 429 with [Retry-After: 2] once, then success. *)
Definition rate_limited_once (n : nat) (req : request) : exchange :=
  match n with
  | O => Replied 1 {| status := 429; headers := [("Retry-After", "2")]%string;
                      body := JObj [] |}
  | S _ => Replied 1 ok_reply
  end.

(** Every exchange times out after 30 seconds. *)
Definition always_timeout (n : nat) (req : request) : exchange :=
  Failed 30 TimeoutError.

(** Every exchange is answered by a 500 with an empty envelope. *)
Definition always_500 (n : nat) (req : request) : exchange :=
  Replied 5 {| status := 500; headers := []; body := JObj [] |}.

Definition invalid_search_reply : response :=
  {| status := 200; headers := [];
     body := JObj [("success", JBool false);
                   ("error", JObj [("message", JStr "limit must be positive")])]%string |}.

(** A server that validates the search parameters and rejects them. *)
Definition validating_server (n : nat) (req : request) : exchange :=
  Replied 5 invalid_search_reply.

(** A rate-limit reply whose [Retry-After] is an HTTP date. *)
Definition dated_rate_limit : response :=
  {| status := 429;
     headers := [("Retry-After", "Wed, 21 Oct 2015 07:28:00 GMT")]%string;
     body := JObj [] |}.

Definition rate_limiting_with_date (n : nat) (req : request) : exchange :=
  Replied 5 dated_rate_limit.

(** A per-item operation over texts: the first item takes three rounds, the
    second fails at once, the third takes one round, the others fail after
    two rounds with their own text as the error. *)
Definition sample_processor (item : string) (index : nat)
  : nat * @Batch.completion Z string :=
  match index with
  | 0%nat => (3%nat, Batch.Returns 10)
  | 1%nat => (0%nat, Batch.Raises "boom"%string)
  | 2%nat => (1%nat, Batch.Returns 30)
  | _ => (2%nat, Batch.Raises item)
  end.

(** The same operations, except that the third one is cancelled while it
    is suspended. *)
Definition cancelled_processor (item : string) (index : nat)
  : nat * @Batch.completion Z string :=
  match index with
  | 2%nat => (1%nat, Batch.Escapes "CancelledError"%string)
  | _ => sample_processor item index
  end.

Definition sample_items : list string := ["a"; "b"; "c"; "d"; "e"]%string.

(** A timeout, then a 500, then success. *)
Definition flaky_twice (n : nat) (req : request) : exchange :=
  match n with
  | 0%nat => Failed 2 TimeoutError
  | 1%nat => Replied 1 {| status := 500; headers := []; body := JObj [] |}
  | _ => Replied 1 ok_reply
  end.

(** A server that always answers with [ok_reply]. *)
Definition healthy_server (n : nat) (req : request) : exchange := Replied 1 ok_reply.

(** A rate-limit reply that asks for a wait of ten to the power 309
    seconds. *)
Definition endless_rate_limit : response :=
  {| status := 429;
     headers := [("Retry-After",
                  "1000000000000000000000000000000000000000000000000000000000000000000000000000000000000000000000000000000000000000000000000000000000000000000000000000000000000000000000000000000000000000000000000000000000000000000000000000000000000000000000000000000000000000000000000000000000000000000000000000000000000000000000")]%string;
     body := JObj [] |}.

Definition endless_rate_limiter (n : nat) (req : request) : exchange :=
  Replied 1 endless_rate_limit.

(** The call is cancelled two seconds into its first exchange. *)
Definition cancelling_transport (n : nat) (req : request) : exchange :=
  Failed 2 CancelledError.

Definition string_error_reply : response :=
  {| status := 404; headers := [];
     body := JObj [("error", JStr "Not found")]%string |}.

(** A 404 whose [error] entry is a string instead of a dictionary. *)
Definition terse_server (n : nat) (req : request) : exchange :=
  Replied 4 string_error_reply.

Definition bare_failure_reply : response :=
  {| status := 200; headers := []; body := JObj [("success", JBool false)]%string |}.

(** A failure envelope without an [error] entry. *)
Definition laconic_server (n : nat) (req : request) : exchange :=
  Replied 5 bare_failure_reply.

(** * Properties of the request executor *)

#[local] Arguments stop_after_attempt : simpl never.
#[local] Arguments wait_exponential : simpl never.
#[local] Arguments float_overflow_bound : simpl never.

(** *** Sleeping *)

Lemma small_below_float_overflow_bound : 10 < float_overflow_bound.
Proof. vm_compute. reflexivity. Qed.

(** An integer delay below the bound is slept. *)
Lemma sleep_overflows_below (n : Z) :
  n < float_overflow_bound -> sleep_overflows (inject_Z n) = false.
Proof.
  intros H. unfold sleep_overflows. apply andb_false_iff. right.
  destruct (Qle_bool (inject_Z float_overflow_bound) (inject_Z n)) eqn:E;
    [|reflexivity].
  apply Qle_bool_iff in E. unfold Qle in E. cbn [Qnum Qden inject_Z] in E. lia.
Qed.

(** An integer delay from the bound on is not. *)
Lemma sleep_overflows_from (n : Z) :
  float_overflow_bound <= n -> sleep_overflows (inject_Z n) = true.
Proof.
  intros H. pose proof small_below_float_overflow_bound as B.
  unfold sleep_overflows. apply andb_true_iff. split.
  - apply negb_true_iff.
    destruct (Qle_bool (inject_Z n) 0) eqn:E; [|reflexivity].
    apply Qle_bool_iff in E. unfold Qle in E. cbn [Qnum Qden inject_Z] in E. lia.
  - apply Qle_bool_iff. unfold Qle. cbn [Qnum Qden inject_Z]. lia.
Qed.

Lemma wait_exponential_bounds attempt_number :
  1 <= wait_exponential 1 1 10 attempt_number <= 10.
Proof. unfold wait_exponential. lia. Qed.

(** The backoff of the decorator is always slept. *)
Lemma backoff_sleep attempt_number w :
  asyncio_sleep (inject_Z (wait_exponential 1 1 10 attempt_number)) w
  = Return (slept (inject_Z (wait_exponential 1 1 10 attempt_number)) w).
Proof.
  unfold asyncio_sleep. rewrite sleep_overflows_below; [reflexivity|].
  pose proof (wait_exponential_bounds attempt_number).
  pose proof small_below_float_overflow_bound. lia.
Qed.

(** The exceptions that the decorator retries are instances of
    [Exception]. *)
Lemma retried_is_Exception e :
  retry_if_exception_type e = true -> is_Exception e = true.
Proof. destruct e; simpl; congruence. Qed.

Lemma count_resubmitted_app xs ys :
  count_resubmitted (xs ++ ys) = (count_resubmitted xs + count_resubmitted ys)%nat.
Proof.
  induction xs as [|[q ex] xs IH]; simpl; [reflexivity|]. rewrite IH. lia.
Qed.

Lemma accounted_trans w1 w2 w3 n1 n2 :
  accounted w1 w2 n1 -> accounted w2 w3 n2 -> accounted w1 w3 (n2 ++ n1).
Proof.
  intros (L1 & R1 & T1) (L2 & R2 & T2). unfold accounted.
  rewrite L2, L1, R2, R1, T2, T1, count_resubmitted_app, length_app, <- app_assoc.
  repeat split; lia.
Qed.

(** The message built by the code is the one the specification words,
    whenever the envelope can be read. *)
Lemma envelope_error_message_http d r :
  is_http_error_reply (Replied d r) = true ->
  envelope_error_message (body r) (generic_http_message r)
  = Return (http_error_message r).
Proof.
  intros H. simpl in H. apply andb_prop in H as [_ H].
  unfold envelope_error_message, http_error_message.
  destruct (body r) as [| | | | | |kvs]; try discriminate. simpl.
  destruct (dict_lookup "error" kvs) as [[| | | | | |ekvs]|]; try discriminate;
    reflexivity.
Qed.

Section ExecutorFacts.

Variable transport : nat -> request -> exchange.

(** The handler touches neither [requests], nor [retries], nor the log. *)
Lemma except_Exception_settled start r w :
  settled r w -> settled (except_Exception start r) w.
Proof.
  intros H o w' E. destruct r as [[[v|e] w1]|]; simpl in E; try discriminate.
  - apply (H _ _ E).
  - destruct (is_Exception e); [|apply (H _ _ E)].
    injection E as <- <-. destruct (H _ _ eq_refl) as (last & earlier & A & C).
    exists last, earlier. split; [exact A|exact C].
Qed.

Lemma body_settled resubmit endpoint method data w :
  (forall w1, settled (resubmit w1) w1) ->
  settled (_make_request_body transport resubmit endpoint method data w) w.
Proof.
  intros Hre. unfold _make_request_body.
  apply except_Exception_settled.
  unfold session_request. cbv zeta.
  set (req := request_for (incr_requests w) endpoint method data).
  assert (Single : forall (ex : exchange) (o : outcome json) (w1 : world),
    is_resubmitted ex = false ->
    log w1 = (req, ex) :: log w ->
    requests (stats (self w1)) = requests (stats (self w)) + 1 ->
    retries (stats (self w1)) = retries (stats (self w)) ->
    settled (Some (o, w1)) w).
  { intros ex o w1 Hx Hl Hn Hr o' w' E. injection E as <- <-.
    exists (req, ex), []. split; [|exact Hx].
    repeat split; [exact Hl|simpl; lia|]. simpl. rewrite Hx. simpl. lia. }
  destruct (transport _ req) as [d e|d resp] eqn:Ex.
  - apply (Single (Failed d e)); reflexivity.
  - destruct (status resp =? 429) eqn:S429.
    + destruct (retry_after_of resp) as [[n|e]|] eqn:Ra; [| |discriminate].
      * unfold asyncio_sleep.
        destruct (sleep_overflows (inject_Z n)) eqn:So.
        -- apply (Single (Replied d resp)); [|reflexivity..].
           simpl. rewrite S429, Ra, So. reflexivity.
        -- intros o w' E. apply Hre in E. destruct E as (last & earlier & A & C).
           exists last, (earlier ++ [(req, Replied d resp)]). split; [|exact C].
           change (last :: earlier ++ [(req, Replied d resp)])
             with ((last :: earlier) ++ [(req, Replied d resp)]).
           eapply accounted_trans; [|exact A].
           repeat split; simpl; try lia. rewrite S429, Ra, So. simpl. lia.
      * apply (Single (Replied d resp)); [|reflexivity..].
        simpl. rewrite S429, Ra. reflexivity.
    + assert (Hx : is_resubmitted (Replied d resp) = false)
        by (simpl; rewrite S429; reflexivity).
      destruct (400 <=? status resp); apply (Single (Replied d resp));
        (exact Hx || reflexivity).
Qed.

Lemma retrying_settled fuel : forall attempt_number endpoint method data w,
  settled (retrying transport fuel attempt_number endpoint method data w) w.
Proof.
  induction fuel as [|fuel IH]; intros a endpoint method data w o w' E;
    [discriminate|].
  simpl in E.
  pose proof (body_settled (retrying transport fuel 1%nat endpoint method data)
                endpoint method data w (fun w1 => IH _ _ _ _ w1)) as B.
  destruct (_make_request_body _ _ _ _ _ w) as [[[v|e] w1]|]; simpl in E;
    try discriminate.
  - simplify_eq. apply (B _ _ eq_refl).
  - destruct (B _ _ eq_refl) as (l1 & e1 & A1 & C1).
    destruct (retry_if_exception_type e).
    + destruct (stop_after_attempt 3 a).
      * simplify_eq. exists l1, e1. split; assumption.
      * rewrite backoff_sleep in E.
        apply IH in E. destruct E as (l2 & e2 & A2 & C2).
        exists l2, (e2 ++ l1 :: e1). split; [|exact C2].
        change (l2 :: e2 ++ l1 :: e1) with ((l2 :: e2) ++ l1 :: e1).
        eapply accounted_trans; [exact A1|]. exact A2.
    + simplify_eq. exists l1, e1. split; assumption.
Qed.

Lemma count_resubmitted_le entries :
  (count_resubmitted entries <= length entries)%nat.
Proof.
  induction entries as [|[q ex] entries IH]; simpl; [lia|].
  destruct (is_resubmitted ex); lia.
Qed.

(** C1 (as amended): [requests] counts attempts, not logical calls.  A
    call of [_make_request] that completes has performed at least one HTTP
    exchange: the exchanges [earlier], then the exchange [last].
    [requests] has grown by their number; [retries] has grown by the number
    of the earlier exchanges that were rate-limit replies followed by a
    resubmission.  Hence [requests] has grown by more than [retries]: every
    resubmission after a 429 adds one to [retries] and one to [requests].
    (The calls on which the embedding is silent are those that meet a
    [Retry-After] value whose conversion depends on the interpreter.) *)
Theorem requests_counted_per_attempt fuel endpoint method data w o w' :
  _make_request transport fuel endpoint method data w = Some (o, w') ->
  exists last earlier,
    log w' = last :: earlier ++ log w
    /\ requests (stats (self w'))
       = requests (stats (self w)) + Z.of_nat (S (length earlier))
    /\ retries (stats (self w'))
       = retries (stats (self w)) + Z.of_nat (count_resubmitted earlier)
    /\ retries (stats (self w')) - retries (stats (self w))
       < requests (stats (self w')) - requests (stats (self w)).
Proof.
  intros E.
  destruct (retrying_settled _ _ _ _ _ _ _ _ E)
    as ([q ex] & earlier & (L & R & T) & C).
  simpl in C, R, T. rewrite C in T. simpl in T.
  pose proof (count_resubmitted_le earlier).
  exists (q, ex), earlier. repeat split; [exact L| | |]; lia.
Qed.

(** *** Single attempts *)

Ltac enter_body Ex :=
  unfold _make_request_body, session_request; cbv zeta;
  match goal with
  | |- context [request_for (incr_requests ?w) ?e ?m ?d] =>
      change (request_for (incr_requests w) e m d) with (request_for w e m d);
      change (log (incr_requests w)) with (log w)
  end;
  rewrite Ex.

Lemma body_failed resubmit endpoint method data w d e :
  transport (length (log w)) (request_for w endpoint method data) = Failed d e ->
  is_Exception e = true ->
  exists w1,
    _make_request_body transport resubmit endpoint method data w = Some (Raise e, w1)
    /\ tracked w w1 (request_for w endpoint method data, Failed d e).
Proof.
  intros Ex He. enter_body Ex. simpl. rewrite He.
  eexists. split; [reflexivity|]. repeat split.
Qed.

Lemma body_http_error resubmit endpoint method data w d r :
  transport (length (log w)) (request_for w endpoint method data) = Replied d r ->
  is_http_error_reply (Replied d r) = true ->
  exists w1,
    _make_request_body transport resubmit endpoint method data w
    = Some (Raise (ClientResponseError (status r) (http_error_message r)), w1)
    /\ tracked w w1 (request_for w endpoint method data, Replied d r).
Proof.
  intros Ex Hr. enter_body Ex.
  pose proof (envelope_error_message_http d r Hr) as M.
  unfold generic_http_message in M.
  simpl in Hr. apply andb_prop in Hr as [Hs _]. apply andb_prop in Hs as [H400 H429].
  apply negb_true_iff in H429. rewrite H429, H400, M. simpl.
  eexists. split; [reflexivity|]. repeat split.
Qed.

Lemma body_api_error resubmit endpoint method data w d r :
  transport (length (log w)) (request_for w endpoint method data) = Replied d r ->
  is_api_error_reply (Replied d r) = true ->
  exists w1,
    _make_request_body transport resubmit endpoint method data w
    = Some (Raise (RuntimeError "API Error: " (api_error_message r)), w1)
    /\ tracked w w1 (request_for w endpoint method data, Replied d r)
    /\ (total_time (stats (self w1)) == total_time (stats (self w)) + d + d)%Q.
Proof.
  intros Ex Hr. enter_body Ex.
  simpl in Hr. apply andb_prop in Hr as [Hs Hb].
  assert (H429 : (status r =? 429) = false) by lia.
  assert (H400 : (400 <=? status r) = false) by lia.
  rewrite H429, H400.
  unfold api_error_message, envelope_error_message.
  destruct (body r) as [| | | | | |kvs]; try discriminate. simpl.
  destruct (dict_lookup "success" kvs) as [[|[|]| | | | |]|]; try discriminate.
  destruct (dict_lookup "error" kvs) as [[| | | | | |ekvs]|]; try discriminate.
  destruct (dict_lookup "message" ekvs) as [m|] eqn:M; try discriminate. simpl.
  rewrite M. eexists. split; [reflexivity|]. split; [repeat split|]. simpl. ring.
Qed.

(** The rate-limit branch: the attempt sleeps for the announced delay,
    adds one to [retries] and calls the decorated method again with the
    same arguments. *)
Lemma body_rate_limited resubmit endpoint method data w d r n :
  transport (length (log w)) (request_for w endpoint method data) = Replied d r ->
  status r = 429 ->
  retry_after_of r = Some (Return n) ->
  sleep_overflows (inject_Z n) = false ->
  exists w1,
    _make_request_body transport resubmit endpoint method data w
    = except_Exception (now w) (resubmit w1)
    /\ log w1 = (request_for w endpoint method data, Replied d r) :: log w
    /\ (now w1 == now w + d + (if Qle_bool (inject_Z n) 0 then 0 else inject_Z n))%Q
    /\ retries (stats (self w1)) = retries (stats (self w)) + 1
    /\ requests (stats (self w1)) = requests (stats (self w)) + 1
    /\ errors (stats (self w1)) = errors (stats (self w))
    /\ request_for w1 endpoint method data = request_for w endpoint method data.
Proof.
  intros Ex S R So. enter_body Ex. rewrite S, R. unfold asyncio_sleep.
  rewrite So. simpl.
  eexists. split; [reflexivity|]. repeat split.
Qed.

(** An absent [Retry-After] header stands for 60 seconds. *)
Lemma retry_after_default r :
  headers_get "Retry-After" (headers r) = None ->
  retry_after_of r = Some (Return 60).
Proof. intros H. unfold retry_after_of. rewrite H. reflexivity. Qed.

(** *** The decorator around an attempt that raises *)

Lemma retrying_raise fuel attempt_number endpoint method data w e w1 :
  _make_request_body transport (retrying transport fuel 1%nat endpoint method data)
    endpoint method data w = Some (Raise e, w1) ->
  retry_if_exception_type e = true ->
  retrying transport (S fuel) attempt_number endpoint method data w
  = if stop_after_attempt 3 attempt_number then Some (Raise (RetryError e), w1)
    else retrying transport fuel (S attempt_number) endpoint method data
           (slept (inject_Z (wait_exponential 1 1 10 attempt_number)) w1).
Proof. intros B R. cbn [retrying]. rewrite B, R, backoff_sleep. reflexivity. Qed.

Lemma retrying_pass_through fuel attempt_number endpoint method data w e w1 :
  _make_request_body transport (retrying transport fuel 1%nat endpoint method data)
    endpoint method data w = Some (Raise e, w1) ->
  retry_if_exception_type e = false ->
  retrying transport (S fuel) attempt_number endpoint method data w
  = Some (Raise e, w1).
Proof. intros B R. cbn [retrying]. rewrite B, R. reflexivity. Qed.

Lemma retrying_return fuel attempt_number endpoint method data w v w1 :
  _make_request_body transport (retrying transport fuel 1%nat endpoint method data)
    endpoint method data w = Some (Return v, w1) ->
  retrying transport (S fuel) attempt_number endpoint method data w
  = Some (Return v, w1).
Proof. intros B. cbn [retrying]. rewrite B. reflexivity. Qed.

Lemma tracked_request w w1 entry endpoint method data :
  tracked w w1 entry ->
  forall q, request_for (slept q w1) endpoint method data
            = request_for w endpoint method data.
Proof. intros (B & _) q. unfold request_for. simpl. rewrite B. reflexivity. Qed.

(** When every exchange makes the attempt raise an exception of the retried
    family, the call consists of three attempts and ends with [RetryError]
    around the exception of the third. *)
Lemma three_attempts (raised : exchange -> option exn) endpoint method data :
  (forall resubmit w ex e,
      transport (length (log w)) (request_for w endpoint method data) = ex ->
      raised ex = Some e ->
      retry_if_exception_type e = true /\
      exists w1, _make_request_body transport resubmit endpoint method data w
                 = Some (Raise e, w1)
                 /\ tracked w w1 (request_for w endpoint method data, ex)) ->
  forall w fuel,
    (forall n req, is_Some (raised (transport n req))) ->
    (3 <= fuel)%nat ->
    exists ex e w' older,
      _make_request transport fuel endpoint method data w
      = Some (Raise (RetryError e), w')
      /\ raised ex = Some e
      /\ log w' = (request_for w endpoint method data, ex) :: older
      /\ length (log w') = (length (log w) + 3)%nat
      /\ requests (stats (self w')) = requests (stats (self w)) + 3
      /\ errors (stats (self w')) = errors (stats (self w)) + 3
      /\ retries (stats (self w')) = retries (stats (self w)).
Proof.
  intros Hbody w fuel Hall Hfuel.
  destruct fuel as [|[|[|fuel]]]; try lia. clear Hfuel.
  unfold _make_request.
  set (req := request_for w endpoint method data).
  destruct (Hall (length (log w)) req) as [e1 R1].
  destruct (Hbody (retrying transport (S (S fuel)) 1%nat endpoint method data)
              w _ e1 eq_refl R1) as (T1 & w1 & B1 & K1).
  rewrite (retrying_raise _ _ _ _ _ _ _ _ B1 T1).
  change (stop_after_attempt 3 1) with false. cbv iota.
  set (s1 := slept _ w1).
  assert (Q1 : request_for s1 endpoint method data = req)
    by (eapply tracked_request; exact K1).
  destruct (Hall (length (log s1)) req) as [e2 R2].
  rewrite <- Q1 in R2.
  destruct (Hbody (retrying transport (S fuel) 1%nat endpoint method data)
              s1 _ e2 eq_refl R2) as (T2 & w2 & B2 & K2).
  rewrite (retrying_raise _ _ _ _ _ _ _ _ B2 T2).
  change (stop_after_attempt 3 2) with false. cbv iota.
  set (s2 := slept _ w2).
  assert (Q2 : request_for s2 endpoint method data = req).
  { unfold s2. erewrite tracked_request by exact K2. exact Q1. }
  destruct (Hall (length (log s2)) req) as [e3 R3].
  rewrite <- Q2 in R3.
  destruct (Hbody (retrying transport fuel 1%nat endpoint method data)
              s2 _ e3 eq_refl R3) as (T3 & w3 & B3 & K3).
  rewrite (retrying_raise _ _ _ _ _ _ _ _ B3 T3).
  change (stop_after_attempt 3 3) with true. cbv iota.
  destruct K1 as (U1 & L1 & N1 & E1 & Y1).
  destruct K2 as (U2 & L2 & N2 & E2 & Y2).
  destruct K3 as (U3 & L3 & N3 & E3 & Y3).
  simpl in *.
  eexists _, e3, w3, _. split; [reflexivity|]. split; [exact R3|].
  split; [rewrite L3, Q2; reflexivity|].
  rewrite L3, L2, L1, N3, N2, N1, E3, E2, E1, Y3, Y2, Y1. simpl.
  repeat split; lia.
Qed.

(** C2 (as amended): for a client whose retry ceiling [max_retries] is
    the default, three.  When the transport fails with a network or timeout
    error on every exchange, [_make_request] makes exactly as many attempts
    as the ceiling and then raises the retry-exhausted error, tenacity's
    [RetryError] around the failure of the last attempt.  Each attempt adds
    one to [requests] and one to [errors]; [retries] does not move. *)
Theorem exhausted_retries_count_every_attempt endpoint method data w fuel :
  max_retries (self w) = 3 ->
  (forall n req, is_transient_failure (transport n req) = true) ->
  (3 <= fuel)%nat ->
  exists d e w' older,
    _make_request transport fuel endpoint method data w
    = Some (Raise (RetryError e), w')
    /\ log w' = (request_for w endpoint method data, Failed d e) :: older
    /\ length (log w') = (length (log w) + Z.to_nat (max_retries (self w)))%nat
    /\ requests (stats (self w')) = requests (stats (self w)) + max_retries (self w)
    /\ errors (stats (self w')) = errors (stats (self w)) + max_retries (self w)
    /\ retries (stats (self w')) = retries (stats (self w)).
Proof.
  intros Hceiling Hall Hfuel. rewrite Hceiling.
  destruct (three_attempts transient_exception endpoint method data) with (w := w) (fuel := fuel)
    as (ex & e & w' & older & Hr & Hx & Hl & Hrest); [| |exact Hfuel|].
  - intros resubmit w0 ex e Ex Hx. destruct ex as [d e0|d r]; [|discriminate].
    simpl in Hx. destruct (retry_if_exception_type e0) eqn:T; [|discriminate].
    injection Hx as <-. split; [exact T|].
    apply body_failed; [exact Ex|apply retried_is_Exception; exact T].
  - intros n req. specialize (Hall n req).
    destruct (transport n req) as [d e|d r]; [|discriminate].
    simpl in *. rewrite Hall. eauto.
  - destruct ex as [d e0|d r]; [|discriminate].
    simpl in Hx. destruct (retry_if_exception_type e0); [|discriminate].
    injection Hx as <-. exists d, e0, w', older.
    split; [exact Hr|]. split; [exact Hl|]. exact Hrest.
Qed.

(** C3 (as amended): a reply with a status of 400 or more other than 429
    makes the attempt raise [ClientResponseError] with that status and with
    the message of the error envelope when there is one, the generic
    ["HTTP <status>"] otherwise.  The error belongs to the family the
    decorator retries: when every exchange is answered that way the request
    is sent three times, and the caller receives [RetryError] around the
    error of the third reply. *)
Theorem http_error_is_retried endpoint method data w fuel :
  (forall n req, is_http_error_reply (transport n req) = true) ->
  (3 <= fuel)%nat ->
  exists d r w' older,
    _make_request transport fuel endpoint method data w
    = Some (Raise (RetryError (ClientResponseError (status r) (http_error_message r))), w')
    /\ log w' = (request_for w endpoint method data, Replied d r) :: older
    /\ length (log w') = (length (log w) + 3)%nat
    /\ requests (stats (self w')) = requests (stats (self w)) + 3
    /\ errors (stats (self w')) = errors (stats (self w)) + 3
    /\ retries (stats (self w')) = retries (stats (self w)).
Proof.
  intros Hall Hfuel.
  destruct (three_attempts http_exception endpoint method data) with (w := w) (fuel := fuel)
    as (ex & e & w' & older & Hr & Hx & Hl & Hrest); [| |exact Hfuel|].
  - intros resubmit w0 ex e Ex Hx. destruct ex as [d e0|d r]; [discriminate|].
    unfold http_exception in Hx.
    destruct (is_http_error_reply (Replied d r)) eqn:T; [|discriminate].
    injection Hx as <-. split; [reflexivity|]. apply body_http_error; assumption.
  - intros n req. specialize (Hall n req).
    destruct (transport n req) as [d e|d r]; [discriminate|].
    unfold http_exception. rewrite Hall. eauto.
  - destruct ex as [d e0|d r]; [discriminate|].
    unfold http_exception in Hx.
    destruct (is_http_error_reply (Replied d r)); [|discriminate].
    injection Hx as <-. exists d, r, w', older.
    split; [exact Hr|]. split; [exact Hl|]. exact Hrest.
Qed.

(** C6: a 429 whose [Retry-After] header is present but is not an integer
    literal, the value being ASCII text.  [int] raises [ValueError]; the
    handler counts an error and the exception reaches the caller.  Nothing
    is resubmitted, [retries] does not move, and the 60 second default is
    not used. *)
Theorem malformed_retry_after_raises endpoint method data w fuel d r v e :
  transport (length (log w)) (request_for w endpoint method data) = Replied d r ->
  status r = 429 ->
  headers_get "Retry-After" (headers r) = Some v ->
  py_int v = Some (Raise e) ->
  (1 <= fuel)%nat ->
  exists w',
    _make_request transport fuel endpoint method data w
    = Some (Raise (ValueError v), w')
    /\ log w' = (request_for w endpoint method data, Replied d r) :: log w
    /\ now w' = (now w + d)%Q
    /\ errors (stats (self w')) = errors (stats (self w)) + 1
    /\ retries (stats (self w')) = retries (stats (self w)).
Proof.
  intros Ex S H P Hf. destruct fuel as [|fuel]; [lia|].
  assert (e = ValueError v) as ->.
  { unfold py_int in P.
    destruct (is_ascii v && (count_digits v <=? max_str_digits)%nat);
      [|discriminate].
    destruct (match rstrip (lstrip v) with EmptyString => _ | String _ _ => _ end);
      congruence. }
  unfold _make_request. cbn [retrying]. enter_body Ex. rewrite S.
  unfold retry_after_of. rewrite H, P. simpl.
  eexists. split; [reflexivity|]. repeat split.
Qed.

(** C7: an attempt that fails after its response has been read has its
    duration added to [total_time] twice, once when the response arrives and
    once more in the exception handler.  Here the reply is an API error that
    took [d] seconds: the call is this single attempt, [total_time] grows by
    [2 * d], which is not the duration [d] of the attempt unless [d] is
    zero. *)
Theorem failed_reply_time_counted_twice endpoint method data w fuel d r :
  transport (length (log w)) (request_for w endpoint method data) = Replied d r ->
  is_api_error_reply (Replied d r) = true ->
  (1 <= fuel)%nat ->
  exists e w',
    _make_request transport fuel endpoint method data w = Some (Raise e, w')
    /\ log w' = (request_for w endpoint method data, Replied d r) :: log w
    /\ (total_time (stats (self w')) == total_time (stats (self w)) + 2 * d)%Q
    /\ (~ (d == 0)%Q ->
        ~ (total_time (stats (self w')) == total_time (stats (self w)) + d)%Q).
Proof.
  intros Ex Hr Hf. destruct fuel as [|fuel]; [lia|].
  destruct (body_api_error (retrying transport fuel 1%nat endpoint method data)
              _ _ _ _ _ _ Ex Hr) as (w1 & B & (_ & L & _) & T).
  eexists _, w1. unfold _make_request.
  rewrite (retrying_pass_through _ _ _ _ _ _ _ _ B eq_refl).
  repeat split; [exact L|rewrite T; ring|].
  intros Hd Hs. apply Hd. rewrite T in Hs.
  assert (Hz : (total_time (stats (self w)) + d + d - (total_time (stats (self w)) + d)
                == 0)%Q) by (rewrite Hs; ring).
  rewrite <- Hz. ring.
Qed.

(** C8: a reply with a successful status whose envelope says
    [success: false] makes [_make_request] raise the API error built from
    the envelope's message, at whatever attempt of the decorator it is
    received.  The request is not sent again: the exchange is the only one
    of the call, [errors] grew by one and [retries] did not move. *)
Theorem api_error_surfaced endpoint method data w fuel d r :
  transport (length (log w)) (request_for w endpoint method data) = Replied d r ->
  is_api_error_reply (Replied d r) = true ->
  (1 <= fuel)%nat ->
  exists w',
    _make_request transport fuel endpoint method data w
    = Some (Raise (RuntimeError "API Error: " (api_error_message r)), w')
    /\ (forall attempt_number,
          retrying transport fuel attempt_number endpoint method data w
          = Some (Raise (RuntimeError "API Error: " (api_error_message r)), w'))
    /\ retry_if_exception_type (RuntimeError "API Error: " (api_error_message r))
       = false
    /\ log w' = (request_for w endpoint method data, Replied d r) :: log w
    /\ requests (stats (self w')) = requests (stats (self w)) + 1
    /\ errors (stats (self w')) = errors (stats (self w)) + 1
    /\ retries (stats (self w')) = retries (stats (self w)).
Proof.
  intros Ex Hr Hf. destruct fuel as [|fuel]; [lia|].
  destruct (body_api_error (retrying transport fuel 1%nat endpoint method data)
              _ _ _ _ _ _ Ex Hr) as (w1 & B & (_ & L & N & E & R) & _).
  exists w1. unfold _make_request.
  split; [apply (retrying_pass_through _ _ _ _ _ _ _ _ B eq_refl)|].
  split; [intros a; apply (retrying_pass_through _ _ _ _ _ _ _ _ B eq_refl)|].
  auto.
Qed.

End ExecutorFacts.

(** *** The properties on the sample transports *)

Lemma requests_counted_per_attempt_witness :
  exists o w',
    _make_request rate_limited_once 5 "/health" "GET" None fresh_world = Some (o, w')
    /\ exists last earlier,
         log w' = last :: earlier ++ log fresh_world
         /\ requests (stats (self w'))
            = requests (stats (self fresh_world)) + Z.of_nat (S (length earlier))
         /\ retries (stats (self w'))
            = retries (stats (self fresh_world))
              + Z.of_nat (count_resubmitted earlier)
         /\ retries (stats (self w')) - retries (stats (self fresh_world))
            < requests (stats (self w')) - requests (stats (self fresh_world)).
Proof.
  eexists _, _. split; [vm_compute; reflexivity|].
  apply (requests_counted_per_attempt rate_limited_once 5 "/health" "GET" None
           fresh_world (Return (JStr "healthy"))).
  vm_compute. reflexivity.
Defined.

(** C1, as the specification states it, fails: one 429 followed by a
    success is one logical call, and it leaves [retries] at 1 and
    [requests] at 2. *)
Lemma rate_limited_call_counts_two_requests :
  exists w',
    _make_request rate_limited_once 5 "/health" "GET" None fresh_world
    = Some (Return (JStr "healthy"), w')
    /\ retries (stats (self w')) = retries (stats (self fresh_world)) + 1
    /\ requests (stats (self w')) = requests (stats (self fresh_world)) + 2.
Proof.
  eexists. split; [vm_compute; reflexivity|]. split; reflexivity.
Qed.

Lemma exhausted_retries_count_every_attempt_witness :
  exists d e w' older,
    _make_request always_timeout 3 "/health" "GET" None fresh_world
    = Some (Raise (RetryError e), w')
    /\ log w' = (request_for fresh_world "/health" "GET" None, Failed d e) :: older
    /\ length (log w')
       = (length (log fresh_world) + Z.to_nat (max_retries (self fresh_world)))%nat
    /\ requests (stats (self w'))
       = requests (stats (self fresh_world)) + max_retries (self fresh_world)
    /\ errors (stats (self w'))
       = errors (stats (self fresh_world)) + max_retries (self fresh_world)
    /\ retries (stats (self w')) = retries (stats (self fresh_world)).
Proof.
  apply (exhausted_retries_count_every_attempt always_timeout "/health" "GET" None
           fresh_world 3); [reflexivity | intros n req; reflexivity | lia].
Defined.

(** C2, as the specification states it, fails: against a transport that
    always times out the call makes three attempts and leaves both [errors]
    and [requests] at 3, not at 1. *)
Lemma timeouts_count_three_errors :
  exists w',
    _make_request always_timeout 5 "/health" "GET" None fresh_world
    = Some (Raise (RetryError TimeoutError), w')
    /\ length (log w') = 3%nat
    /\ errors (stats (self w')) = errors (stats (self fresh_world)) + 3
    /\ requests (stats (self w')) = requests (stats (self fresh_world)) + 3.
Proof.
  eexists. split; [vm_compute; reflexivity|]. repeat split; reflexivity.
Qed.

Lemma http_error_is_retried_witness :
  exists d r w' older,
    _make_request always_500 3 "/stats" "GET" None fresh_world
    = Some (Raise (RetryError (ClientResponseError (status r) (http_error_message r))), w')
    /\ log w' = (request_for fresh_world "/stats" "GET" None, Replied d r) :: older
    /\ length (log w') = (length (log fresh_world) + 3)%nat
    /\ requests (stats (self w')) = requests (stats (self fresh_world)) + 3
    /\ errors (stats (self w')) = errors (stats (self fresh_world)) + 3
    /\ retries (stats (self w')) = retries (stats (self fresh_world)).
Proof.
  apply (http_error_is_retried always_500 "/stats" "GET" None fresh_world 3);
    [intros n req; reflexivity | lia].
Defined.

(** C3, as the specification states it, fails: a server that answers 500
    is asked three times, and what the caller receives is [RetryError], not
    the HTTP error itself. *)
Lemma http_500_is_sent_three_times :
  exists w',
    _make_request always_500 5 "/stats" "GET" None fresh_world
    = Some (Raise (RetryError (ClientResponseError 500 (JStr "HTTP 500"))), w')
    /\ length (log w') = 3%nat
    /\ retry_if_exception_type (ClientResponseError 500 (JStr "HTTP 500")) = true.
Proof.
  eexists. split; [vm_compute; reflexivity|]. split; reflexivity.
Qed.

Lemma malformed_retry_after_raises_witness :
  exists w',
    _make_request rate_limiting_with_date 1 "/health" "GET" None fresh_world
    = Some (Raise (ValueError "Wed, 21 Oct 2015 07:28:00 GMT"), w')
    /\ log w' = (request_for fresh_world "/health" "GET" None,
                 Replied 5 dated_rate_limit) :: log fresh_world
    /\ now w' = (now fresh_world + 5)%Q
    /\ errors (stats (self w')) = errors (stats (self fresh_world)) + 1
    /\ retries (stats (self w')) = retries (stats (self fresh_world)).
Proof.
  apply (malformed_retry_after_raises rate_limiting_with_date "/health" "GET" None
           fresh_world 1 5 dated_rate_limit "Wed, 21 Oct 2015 07:28:00 GMT"
           (ValueError "Wed, 21 Oct 2015 07:28:00 GMT"));
    [reflexivity | reflexivity | reflexivity | reflexivity | lia].
Defined.

Lemma failed_reply_time_counted_twice_witness :
  exists e w',
    _make_request validating_server 1 "/search-knowledge" "POST" None fresh_world
    = Some (Raise e, w')
    /\ log w' = (request_for fresh_world "/search-knowledge" "POST" None,
                 Replied 5 invalid_search_reply) :: log fresh_world
    /\ (total_time (stats (self w')) == total_time (stats (self fresh_world)) + 2 * 5)%Q
    /\ (~ (5 == 0)%Q ->
        ~ (total_time (stats (self w')) == total_time (stats (self fresh_world)) + 5)%Q).
Proof.
  apply (failed_reply_time_counted_twice validating_server "/search-knowledge" "POST"
           None fresh_world 1 5 invalid_search_reply);
    [reflexivity | reflexivity | lia].
Defined.

Lemma api_error_surfaced_witness :
  exists w',
    _make_request validating_server 1 "/search-knowledge" "POST" None fresh_world
    = Some (Raise (RuntimeError "API Error: " (JStr "limit must be positive")), w')
    /\ (forall attempt_number,
          retrying validating_server 1 attempt_number "/search-knowledge" "POST" None
            fresh_world
          = Some (Raise (RuntimeError "API Error: " (JStr "limit must be positive")), w'))
    /\ retry_if_exception_type
         (RuntimeError "API Error: " (JStr "limit must be positive")) = false
    /\ log w' = (request_for fresh_world "/search-knowledge" "POST" None,
                 Replied 5 invalid_search_reply) :: log fresh_world
    /\ requests (stats (self w')) = requests (stats (self fresh_world)) + 1
    /\ errors (stats (self w')) = errors (stats (self fresh_world)) + 1
    /\ retries (stats (self w')) = retries (stats (self fresh_world)).
Proof.
  apply (api_error_surfaced validating_server "/search-knowledge" "POST" None
           fresh_world 1 5 invalid_search_reply); [reflexivity | reflexivity | lia].
Defined.

(** * Properties of the statistics *)

Lemma truediv_by_positive (a : Q) (n : Z) :
  0 < n -> py_truediv a (inject_Z n) = inr (a / inject_Z n)%Q.
Proof.
  intros H. unfold py_truediv.
  destruct (Qeq_bool (inject_Z n) 0) eqn:E; [|reflexivity].
  apply Qeq_bool_eq in E. unfold Qeq in E. simpl in E. lia.
Qed.

(** The derived values never divide by zero. *)
Lemma derived_values_defined (s : ClientStats) :
  average_response_time s <> inl ZeroDivisionError
  /\ error_rate s <> inl ZeroDivisionError.
Proof.
  unfold average_response_time, error_rate.
  destruct (0 <? requests s) eqn:P; [|split; discriminate].
  apply Z.ltb_lt in P. rewrite !truediv_by_positive by exact P.
  split; discriminate.
Qed.

(** C9: after [reset_stats()] the four counters are zero, both derived
    values are 0 and the snapshot of [get_performance_stats] shows zeros.
    More generally, with [requests] at 0 both derived values are 0, and for
    no statistics at all does a derived value raise [ZeroDivisionError]: the
    division is evaluated only under [requests > 0]. *)
Theorem reset_stats_snapshot (c : KnowledgeGraphAdvancedClient) :
  stats (reset_stats c)
  = {| requests := 0; errors := 0; total_time := 0%Q; retries := 0 |}
  /\ average_response_time (stats (reset_stats c)) = inr 0%Q
  /\ error_rate (stats (reset_stats c)) = inr 0%Q
  /\ get_performance_stats (reset_stats c)
     = inr [("total_requests", JInt 0); ("total_errors", JInt 0);
            ("total_retries", JInt 0); ("average_response_time", JFloat 0);
            ("error_rate", JFloat 0); ("total_time", JFloat 0)]%string
  /\ (forall s, requests s = 0 ->
        average_response_time s = inr 0%Q /\ error_rate s = inr 0%Q)
  /\ (forall s, requests s <= 0 ->
        average_response_time s = inr 0%Q /\ error_rate s = inr 0%Q)
  /\ (forall s, average_response_time s <> inl ZeroDivisionError
                /\ error_rate s <> inl ZeroDivisionError).
Proof.
  assert (G : forall s, requests s <= 0 ->
                average_response_time s = inr 0%Q /\ error_rate s = inr 0%Q).
  { intros s H. unfold average_response_time, error_rate.
    destruct (0 <? requests s) eqn:P; [lia|split; reflexivity]. }
  repeat apply conj; try reflexivity.
  - intros s H. apply G. lia.
  - exact G.
  - exact derived_values_defined.
Qed.

(** * Properties of the payload builders *)

(** C10: [search_knowledge] builds the same payload, and makes the same
    call, for an empty list as for an omitted argument; the keys [types]
    and [sources] are in the payload exactly when the argument is a
    non-empty list.  [process_knowledge] treats an empty [thread_id] as an
    omitted one, and sends [thread_id] exactly when it is a non-empty
    string. *)
Theorem empty_arguments_are_omitted :
  (forall query limit threshold sources,
      search_knowledge_data query limit threshold (Some []) sources
      = search_knowledge_data query limit threshold None sources)
  /\ (forall query limit threshold types,
      search_knowledge_data query limit threshold types (Some [])
      = search_knowledge_data query limit threshold types None)
  /\ (forall transport fuel query limit threshold w,
      search_knowledge transport fuel query limit threshold (Some []) (Some []) w
      = search_knowledge transport fuel query limit threshold None None w)
  /\ (forall query limit threshold types sources,
      is_Some (dict_lookup "types"
                 (search_knowledge_data query limit threshold types sources))
      <-> exists x xs, types = Some (x :: xs))
  /\ (forall query limit threshold types sources,
      is_Some (dict_lookup "sources"
                 (search_knowledge_data query limit threshold types sources))
      <-> exists x xs, sources = Some (x :: xs))
  /\ (forall isoformat clock text source date concepts dedup batch_id,
      process_knowledge_data isoformat clock text source (Some ""%string) date
        concepts dedup batch_id
      = process_knowledge_data isoformat clock text source None date
          concepts dedup batch_id)
  /\ (forall isoformat clock text source thread_id date concepts dedup batch_id,
      is_Some (dict_lookup "thread_id"
                 (process_knowledge_data isoformat clock text source thread_id date
                    concepts dedup batch_id))
      <-> exists a s, thread_id = Some (String a s)).
Proof.
  repeat apply conj.
  - reflexivity.
  - intros. unfold search_knowledge_data. reflexivity.
  - reflexivity.
  - intros query limit threshold [[|x xs]|] [[|y ys]|]; cbn;
      (split; [intros [v Hv]; try discriminate; eauto
              |intros (a & b & Hab); try discriminate; eauto]).
  - intros query limit threshold [[|x xs]|] [[|y ys]|]; cbn;
      (split; [intros [v Hv]; try discriminate; eauto
              |intros (a & b & Hab); try discriminate; eauto]).
  - reflexivity.
  - intros isoformat clock text source [[|a s]|] [[|b d]|] concepts dedup [[|e f]|];
      cbn;
      (split; [intros [v Hv]; try discriminate; eauto
              |intros (a' & b' & Hab); try discriminate; eauto]).
Qed.

(** * Properties of the batch dispatcher *)

Section BatchFacts.

Context {A V E : Type}.
Variable str : E -> string.
Variable processor : A -> nat -> nat * @Batch.completion V E.

Local Open Scope nat_scope.

(** *** One round *)

Lemma wake_up_spec queue : forall value,
  match Batch.wake_up str processor value queue with
  | (value', queue', started, called) =>
      called ++ queue' = queue
      /\ (settle str <$> started) ++ (settle_waiter str processor <$> queue')
         = settle_waiter str processor <$> queue
      /\ value' + sum_list_with running started = value
      /\ sum_list_with weight started
         + sum_list_with (waiter_weight processor) queue'
         + length called = sum_list_with (waiter_weight processor) queue
      /\ (0 < value -> queue <> [] -> 0 < length called)
      /\ (value = 0 -> called = [])
  end.
Proof.
  induction queue as [|[item index] rest IH]; intros value.
  - cbn. repeat split; auto. intros _ H. congruence.
  - destruct value as [|value'].
    + cbn. repeat split; auto; lia.
    + cbn [Batch.wake_up sum_list_with]. rewrite !fmap_cons.
      unfold settle_waiter at 2, waiter_weight at 2. cbn [fst snd].
      destruct (processor item index) as [[|k] r] eqn:P.
      * specialize (IH (S value')).
        destruct (Batch.wake_up str processor (S value') rest) as [[[v q] started] called].
        destruct IH as (I1 & I2 & I3 & I4 & I5 & I6).
        rewrite !fmap_cons.
        cbn [settle running weight sum_list_with app length fst snd].
        rewrite I1, I2. repeat split; auto; lia.
      * specialize (IH value').
        destruct (Batch.wake_up str processor value' rest) as [[[v q] started] called].
        destruct IH as (I1 & I2 & I3 & I4 & I5 & I6).
        rewrite !fmap_cons.
        cbn [settle running weight sum_list_with app length fst snd].
        rewrite I1, I2. repeat split; auto; lia.
Qed.

Lemma advance_spec (ts : list (@Batch.task V E)) :
  settle str <$> (fst <$> (Batch.advance str <$> ts)) = settle str <$> ts
  /\ sum_list_with running (fst <$> (Batch.advance str <$> ts))
     + sum_list_with snd (Batch.advance str <$> ts) = sum_list_with running ts
  /\ sum_list_with weight (fst <$> (Batch.advance str <$> ts))
     + sum_list_with running ts = sum_list_with weight ts.
Proof.
  induction ts as [|t ts (I1 & I2 & I3)]; [auto|].
  rewrite !fmap_cons, I1. cbn [sum_list_with].
  destruct t as [index [|[|k]] r|g]; cbn; repeat split; auto; lia.
Qed.

Lemma round_inv c items st :
  loop_inv str processor c items st ->
  loop_inv str processor c items (Batch.round str processor st).
Proof.
  intros [P R C]. unfold Batch.round.
  destruct (advance_spec (Batch.tasks st)) as (S1 & S2 & _).
  pose proof (wake_up_spec (Batch.waiters st)
                (Batch.sem_value st
                 + sum_list_with snd (Batch.advance str <$> Batch.tasks st))) as H.
  destruct (Batch.wake_up _ _ _ _) as [[[v q] started] called].
  destruct H as (H1 & H2 & H3 & _).
  split; cbn [Batch.sem_value Batch.tasks Batch.waiters Batch.calls].
  - rewrite sum_list_with_app. lia.
  - rewrite fmap_app, S1, <- app_assoc, H2. exact R.
  - rewrite <- app_assoc, H1. exact C.
Qed.

Lemma mapM_finished_settle (ts : list (@Batch.task V E)) gs :
  mapM Batch.finished ts = Some gs ->
  gs = settle str <$> ts /\ sum_list_with running ts = 0.
Proof.
  intros H. apply mapM_Some_1 in H.
  induction H as [|t g ts gs Ht _ [IH1 IH2]]; [auto|].
  destruct t; cbn in *; [discriminate|]. simplify_eq. auto.
Qed.

Lemma mapM_finished_None (ts : list (@Batch.task V E)) :
  mapM Batch.finished ts = None -> 0 < sum_list_with running ts.
Proof.
  induction ts as [|t ts IH]; [discriminate|].
  destruct t as [i k r|g]; cbn; [lia|].
  intros H. apply IH. destruct (mapM Batch.finished ts); [discriminate|reflexivity].
Qed.

(** With at least one permit, a round of an unfinished batch makes
    progress: a task inside [processor] advances, or, when there is none,
    all permits are free and the first queued task starts. *)
Lemma round_progress c items st :
  loop_inv str processor c items st -> 0 < c -> Batch.completed st = None ->
  rounds_left processor (Batch.round str processor st) < rounds_left processor st.
Proof.
  intros [P R C] Hc Hn. unfold Batch.round, rounds_left.
  destruct (advance_spec (Batch.tasks st)) as (_ & S2 & S3).
  pose proof (wake_up_spec (Batch.waiters st)
                (Batch.sem_value st
                 + sum_list_with snd (Batch.advance str <$> Batch.tasks st))) as H.
  destruct (Batch.wake_up _ _ _ _) as [[[v q] started] called].
  destruct H as (_ & _ & _ & H4 & H5 & _).
  cbn [Batch.sem_value Batch.tasks Batch.waiters Batch.calls].
  rewrite sum_list_with_app.
  destruct (decide (sum_list_with running (Batch.tasks st) = 0)) as [Z|NZ]; [|lia].
  assert (0 < length called); [|lia].
  apply H5; [lia|]. intros W. unfold Batch.completed in Hn. rewrite W in Hn.
  apply mapM_finished_None in Hn. lia.
Qed.

(** [gather] returns, with the outcome of every item in input order, once
    it is given as many rounds as are left. *)
Lemma gather_completes c items : forall fuel st,
  loop_inv str processor c items st -> 0 < c ->
  rounds_left processor st <= fuel ->
  exists st',
    Batch.gather str processor fuel st
    = Some (settle_waiter str processor <$> Batch.enumerate items, st')
    /\ Batch.calls st' = Batch.enumerate items.
Proof.
  induction fuel as [|fuel IH]; intros st I Hc Hf; cbn [Batch.gather];
    destruct (Batch.completed st) as [gs|] eqn:D.
  1,3: exists st; destruct I as [P R C]; unfold Batch.completed in D;
       destruct (Batch.waiters st); [|discriminate];
       apply mapM_finished_settle in D as [-> _];
       rewrite !app_nil_r in *; rewrite R, C; auto.
  - pose proof (round_progress c items st I Hc D). lia.
  - apply IH; [apply round_inv; exact I|exact Hc|].
    pose proof (round_progress c items st I Hc D). lia.
Qed.

(** X22: the limit is respected: after any number of rounds, the tasks
    inside [processor] are at most as many as the semaphore had permits. *)
Lemma in_flight_bounded (c : nat) (items : list A) n :
  sum_list_with running
    (Batch.tasks (Nat.iter n (Batch.round str processor) (Batch.created c items)))
  <= c.
Proof.
  assert (I : loop_inv str processor c items
                (Nat.iter n (Batch.round str processor) (Batch.created c items))).
  { induction n as [|n IH]; [split; cbn; [lia|reflexivity|reflexivity]|].
    rewrite Nat.iter_succ. apply round_inv. exact IH. }
  destruct I as [P _ _]. lia.
Qed.

(** *** Categorizing the gathered results *)

Lemma categorize_acc (gs : list (@Batch.gathered V E)) : forall rs es,
  Batch.categorize str gs rs es
  = match Batch.categorize str gs [] [] with
    | Return b =>
        Return {| Batch.results := rs ++ Batch.results b;
                  Batch.errors := es ++ Batch.errors b |}
    | Raise e => Raise e
    end.
Proof.
  induction gs as [|[d|e|b] gs IH]; intros rs es; cbn [Batch.categorize].
  - rewrite !app_nil_r. reflexivity.
  - destruct (Batch.success d).
    + rewrite (IH (rs ++ [d])), (IH ([] ++ [d])).
      destruct (Batch.categorize str gs [] []); [|reflexivity].
      cbn. rewrite <- app_assoc. reflexivity.
    + rewrite (IH rs (es ++ _)), (IH [] ([] ++ _)).
      destruct (Batch.categorize str gs [] []); [|reflexivity].
      cbn. rewrite <- app_assoc. reflexivity.
  - rewrite (IH rs (es ++ _)), (IH [] ([] ++ _)).
    destruct (Batch.categorize str gs [] []); [|reflexivity].
    cbn. rewrite <- app_assoc. reflexivity.
  - reflexivity.
Qed.

Lemma categorize_success i v (gs : list (@Batch.gathered V E)) :
  Batch.categorize str (Batch.Returned (Batch.ItemSuccess i v) :: gs) [] []
  = match Batch.categorize str gs [] [] with
    | Return b =>
        Return {| Batch.results := Batch.ItemSuccess i v :: Batch.results b;
                  Batch.errors := Batch.errors b |}
    | Raise e => Raise e
    end.
Proof. cbn. rewrite categorize_acc. reflexivity. Qed.

Lemma categorize_failure i s (gs : list (@Batch.gathered V E)) :
  Batch.categorize str (Batch.Returned (Batch.ItemFailure i s) :: gs) [] []
  = match Batch.categorize str gs [] [] with
    | Return b =>
        Return {| Batch.results := Batch.results b;
                  Batch.errors :=
                    Batch.OfItem (Batch.ItemFailure i s) :: Batch.errors b |}
    | Raise e => Raise e
    end.
Proof. cbn. rewrite categorize_acc. reflexivity. Qed.

(** What an operation that does not escape hands to [gather]. *)
Lemma settle_waiter_caught (item : A) (i : nat) :
  escapes (processor item i).2 = false ->
  settle_waiter str processor (item, i)
  = Batch.Returned
      match (processor item i).2 with
      | Batch.Returns v => Batch.ItemSuccess i v
      | Batch.Raises e => Batch.ItemFailure i (str e)
      | Batch.Escapes b => Batch.ItemFailure i (str b)
      end.
Proof.
  unfold settle_waiter. cbn [fst snd].
  destruct ((processor item i).2); [reflexivity|reflexivity|discriminate].
Qed.

(** When no operation escapes, every queued pair ends up once, under its
    own index, on the side its operation decides. *)
Lemma categorize_settled (ps : list (A * nat)) :
  Forall (fun p => escapes (processor p.1 p.2).2 = false) ps ->
  exists b,
    Batch.categorize str (settle_waiter str processor <$> ps) [] [] = Return b
    /\ length (Batch.results b) + length (Batch.errors b) = length ps
    /\ Batch.indices b ≡ₚ ps.*2
    /\ (forall p, p ∈ ps ->
          match (processor p.1 p.2).2 with
          | Batch.Returns v => Batch.ItemSuccess p.2 v ∈ Batch.results b
          | Batch.Raises e =>
              Batch.OfItem (Batch.ItemFailure (V:=V) p.2 (str e)) ∈ Batch.errors b
          | Batch.Escapes _ => False
          end).
Proof.
  induction ps as [|[item i] ps IH]; intros Hps.
  - eexists. split; [reflexivity|]. cbn. repeat split; [reflexivity|].
    intros p Hp. inversion Hp.
  - apply Forall_cons in Hps as [Hp Hps]. cbn [fst snd] in Hp.
    destruct (IH Hps) as (b0 & C & L & P & M). rewrite fmap_cons.
    rewrite (settle_waiter_caught _ _ Hp). unfold Batch.indices in *.
    destruct ((processor item i).2) as [v|e|e] eqn:O; [| |discriminate].
    + rewrite categorize_success, C. eexists. split; [reflexivity|].
      cbn [Batch.results Batch.errors length].
      rewrite fmap_cons. cbn [Batch.index_of fst snd app].
      split; [lia|]. split; [constructor; exact P|].
      intros p Hq. apply elem_of_cons in Hq as [->|Hq].
      * cbn [fst snd]. rewrite O. apply elem_of_cons. left. reflexivity.
      * specialize (M p Hq). destruct ((processor p.1 p.2).2); [|exact M|exact M].
        apply elem_of_cons. right. exact M.
    + rewrite categorize_failure, C. eexists. split; [reflexivity|].
      cbn [Batch.results Batch.errors length].
      cbn [omap list_omap Batch.error_index Batch.index_of fst snd].
      split; [lia|]. split.
      * rewrite <- Permutation_middle. constructor. exact P.
      * intros p Hq. apply elem_of_cons in Hq as [->|Hq].
        -- cbn [fst snd]. rewrite O. apply elem_of_cons. left. reflexivity.
        -- specialize (M p Hq). destruct ((processor p.1 p.2).2); [exact M| |exact M].
           apply elem_of_cons. right. exact M.
Qed.

(** When an operation escapes, the loop over the gathered results stops at
    it with [TypeError]. *)
Lemma categorize_escaped (ps : list (A * nat)) :
  Exists (fun p => escapes (processor p.1 p.2).2 = true) ps ->
  Batch.categorize str (settle_waiter str processor <$> ps) [] []
  = Raise TypeError.
Proof.
  induction ps as [|[item i] ps IH]; intros Hps; [inversion Hps|].
  rewrite fmap_cons.
  destruct (escapes (processor item i).2) eqn:Hp.
  - unfold settle_waiter. cbn [fst snd].
    destruct ((processor item i).2); try discriminate. reflexivity.
  - apply Exists_cons in Hps as [Hq|Hps]; [cbn [fst snd] in Hq; congruence|].
    rewrite (settle_waiter_caught _ _ Hp).
    destruct ((processor item i).2) as [v|e|e]; [| |discriminate].
    + rewrite categorize_success, (IH Hps). reflexivity.
    + rewrite categorize_failure, (IH Hps). reflexivity.
Qed.

Lemma enumerate_lookup (items : list A) (p : A * nat) :
  p ∈ Batch.enumerate items <-> items !! p.2 = Some p.1.
Proof.
  unfold Batch.enumerate. split.
  - intros H. apply elem_of_lookup_imap_1 in H as (i & x & -> & H). exact H.
  - intros H. destruct p as [x i].
    apply (elem_of_lookup_imap_2 (fun i item => (item, i))). exact H.
Qed.

Lemma enumerate_indices (items : list A) :
  (Batch.enumerate items).*2 = seq 0 (length items).
Proof.
  unfold Batch.enumerate. rewrite fmap_imap.
  rewrite <- (list_fmap_id (seq 0 (length items))), <- (imap_seq_0 items id).
  apply imap_ext. reflexivity.
Qed.

Lemma created_inv (c : nat) (items : list A) :
  loop_inv str processor c items (Batch.created c items).
Proof. split; cbn; [lia|reflexivity|reflexivity]. Qed.

(** *** A semaphore without permits *)

Lemma round_without_permits (items : list A) :
  Batch.round str processor (Batch.created 0 items) = Batch.created 0 items.
Proof.
  unfold Batch.round, Batch.created. cbn.
  destruct (Batch.enumerate items) as [|[item i] rest]; reflexivity.
Qed.

Lemma rounds_without_permits (items : list A) n :
  Nat.iter n (Batch.round str processor) (Batch.created 0 items)
  = Batch.created 0 items.
Proof.
  induction n as [|n IH]; [reflexivity|]. rewrite Nat.iter_succ, IH.
  apply round_without_permits.
Qed.

Lemma gather_without_permits (item : A) (items : list A) fuel :
  Batch.gather str processor fuel (Batch.created 0 (item :: items)) = None.
Proof.
  induction fuel as [|fuel IH]; [reflexivity|].
  cbn [Batch.gather]. change (Batch.completed (Batch.created 0 (item :: items)))
    with (@None (list (@Batch.gathered V E))).
  cbv iota. rewrite round_without_permits. exact IH.
Qed.

(** C4: with a positive concurrency limit, and as many rounds of the event
    loop as the items need, [process_batch] completes and [processor] has
    been called once for every item, whatever happened to the others.  When
    every operation returns or raises an [Exception], the result accounts
    for every item: successes and failures together are as many as the
    items, the recorded indices are exactly 0, ..., N-1 without repetition,
    and every item is recorded on the side its own operation decides.  When
    an operation ends with an exception that is not an [Exception], a
    cancellation for instance, no result is returned: [process_batch]
    raises [TypeError]. *)
Theorem process_batch_accounts_for_every_item
    (items : list A) (concurrency : Z) (fuel : nat) :
  (0 < concurrency)%Z ->
  rounds_needed processor items <= fuel ->
  exists r,
    Batch.process_batch str processor fuel items concurrency
    = Some (r, Batch.enumerate items)
    /\ ((exists i item,
           items !! i = Some item /\ escapes (processor item i).2 = true) ->
        r = Raise TypeError)
    /\ ((forall i item,
           items !! i = Some item -> escapes (processor item i).2 = false) ->
        exists b,
          r = Return b
          /\ length (Batch.results b) + length (Batch.errors b) = length items
          /\ NoDup (Batch.indices b)
          /\ list_to_set (Batch.indices b) = (set_seq 0 (length items) : gset nat)
          /\ (forall i item, items !! i = Some item ->
                match (processor item i).2 with
                | Batch.Returns v => Batch.ItemSuccess i v ∈ Batch.results b
                | Batch.Raises e =>
                    Batch.OfItem (Batch.ItemFailure (V:=V) i (str e))
                    ∈ Batch.errors b
                | Batch.Escapes _ => False
                end)).
Proof.
  intros Hc Hf. unfold Batch.process_batch, Batch.Semaphore.
  destruct (concurrency <? 0)%Z eqn:N; [lia|]. clear N.
  destruct (gather_completes (Z.to_nat concurrency) items fuel
              (Batch.created (Z.to_nat concurrency) items))
    as (st' & G & C); [apply created_inv|lia|exact Hf|].
  rewrite G, C. eexists. split; [reflexivity|]. split.
  - intros (i & item & Hi & He). apply categorize_escaped.
    apply Exists_exists. exists (item, i). split; [|exact He].
    apply enumerate_lookup. exact Hi.
  - intros Hno.
    destruct (categorize_settled (Batch.enumerate items)) as (b & Cb & L & P & M).
    { apply Forall_forall. intros p Hp. apply Hno. apply enumerate_lookup. exact Hp. }
    exists b. split; [exact Cb|]. repeat apply conj.
    + rewrite L. apply length_imap.
    + rewrite P, enumerate_indices. apply NoDup_seq.
    + rewrite P, enumerate_indices. apply list_to_set_seq.
    + intros i item Hi. apply (M (item, i)). apply enumerate_lookup. exact Hi.
Qed.

(** C5 (as amended): a negative limit makes [process_batch] fail at once,
    with the [ValueError] of the semaphore constructor and before any call
    of [processor].  A limit of zero raises nothing: the call returns the
    empty result when there is no item and never completes otherwise.  In
    both cases [processor] is never called, however long the loop runs. *)
Theorem nonpositive_concurrency_limit
    (items : list A) (concurrency : Z) (fuel : nat) :
  (concurrency <= 0)%Z ->
  Batch.process_batch str processor fuel items concurrency
  = (if (concurrency <? 0)%Z
     then Some (Raise (ValueError "Semaphore initial value must be >= 0"), [])
     else match items with
          | [] => Some (Return {| Batch.results := []; Batch.errors := [] |}, [])
          | _ :: _ => None
          end)
  /\ forall n,
       Batch.calls (Nat.iter n (Batch.round str processor)
                      (Batch.created (Z.to_nat concurrency) items)) = [].
Proof.
  intros H. assert (Z0 : Z.to_nat concurrency = 0) by lia. split.
  - unfold Batch.process_batch, Batch.Semaphore.
    destruct (concurrency <? 0)%Z; [reflexivity|]. rewrite Z0.
    destruct items as [|item items].
    + destruct fuel; reflexivity.
    + rewrite gather_without_permits. reflexivity.
  - intros n. rewrite Z0, rounds_without_permits. reflexivity.
Qed.

End BatchFacts.

(** *** The properties on the sample batch *)

Lemma process_batch_accounts_for_every_item_witness :
  exists r,
    Batch.process_batch id cancelled_processor 20 sample_items 2
    = Some (r, Batch.enumerate sample_items)
    /\ ((exists i item,
           sample_items !! i = Some item
           /\ escapes (cancelled_processor item i).2 = true) ->
        r = Raise TypeError)
    /\ ((forall i item,
           sample_items !! i = Some item
           -> escapes (cancelled_processor item i).2 = false) ->
        exists b,
          r = Return b
          /\ (length (Batch.results b) + length (Batch.errors b)
              = length sample_items)%nat
          /\ NoDup (Batch.indices b)
          /\ list_to_set (Batch.indices b)
             = (set_seq 0 (length sample_items) : gset nat)
          /\ (forall i item, sample_items !! i = Some item ->
                match (cancelled_processor item i).2 with
                | Batch.Returns v => Batch.ItemSuccess i v ∈ Batch.results b
                | Batch.Raises e =>
                    Batch.OfItem (Batch.ItemFailure (V:=Z) i (id e)) ∈ Batch.errors b
                | Batch.Escapes _ => False
                end)).
Proof.
  apply (process_batch_accounts_for_every_item id cancelled_processor sample_items 2 20);
    [lia | vm_compute; lia].
Defined.

(** The batch in which the third operation is cancelled: every operation
    is called, and the call ends with [TypeError] instead of a result. *)
Lemma cancelled_operation_fails_the_batch :
  (exists item, sample_items !! 2%nat = Some item
                /\ (cancelled_processor item 2).2 = Batch.Escapes "CancelledError"%string)
  /\ Batch.process_batch id cancelled_processor 20 sample_items 2
     = Some (Raise TypeError, Batch.enumerate sample_items).
Proof. split; [eexists; split; reflexivity|vm_compute; reflexivity]. Qed.

Lemma nonpositive_concurrency_limit_witness :
  Batch.process_batch id sample_processor 5 sample_items (-1)
  = Some (Raise (ValueError "Semaphore initial value must be >= 0"), [])
  /\ forall n,
       Batch.calls (Nat.iter n (Batch.round id sample_processor)
                      (Batch.created (Z.to_nat (-1)) sample_items)) = [].
Proof.
  apply (nonpositive_concurrency_limit id sample_processor sample_items (-1) 5). lia.
Defined.

(** C5, as the specification states it, fails: with a limit of zero no
    error is raised.  The semaphore is created, a batch with items never
    completes, and a batch without items returns the empty result. *)
Lemma zero_concurrency_raises_nothing :
  Batch.Semaphore 0 = Return 0%nat
  /\ Batch.process_batch id sample_processor 50 sample_items 0 = None
  /\ Batch.process_batch id sample_processor 50 [] 0
     = Some (Return {| Batch.results := []; Batch.errors := [] |}, []).
Proof. repeat split; vm_compute; reflexivity. Qed.

(** * Further properties of the request executor *)

Lemma call_summary_trans req w1 o1 w2 w2' o2 w3 :
  call_summary req w1 o1 w2 ->
  self w2' = self w2 -> log w2' = log w2 ->
  call_summary req w2' o2 w3 ->
  call_summary req w1 o2 w3.
Proof.
  intros (C1 & (n1 & L1 & F1 & R1) & E1 & B1 & _) Hs Hl
         (C2 & (n2 & L2 & F2 & R2) & E2 & B2 & X2).
  rewrite Hs in *. rewrite Hl in *.
  split; [|split; [|repeat split]].
  - unfold same_config in *. intuition congruence.
  - exists (n2 ++ n1). rewrite L2, L1, R2, R1, length_app, <- app_assoc.
    repeat split; [apply Forall_app; auto|lia].
  - lia.
  - lia.
  - intros e He Hx. specialize (X2 e He Hx). lia.
Qed.

(** For stats with [0 <= errors <= requests] the error rate is a
    percentage. *)
Lemma error_rate_percentage (s : ClientStats) :
  0 <= errors s <= requests s ->
  exists q, error_rate s = inr q /\ (0 <= q)%Q /\ (q <= 100)%Q.
Proof.
  intros [H0 H1]. unfold error_rate.
  destruct (0 <? requests s) eqn:P.
  - apply Z.ltb_lt in P. rewrite truediv_by_positive by exact P.
    eexists. split; [reflexivity|].
    destruct (requests s) as [|p|p] eqn:R; try lia.
    unfold Qle, Qdiv, Qmult, Qinv, inject_Z. simpl. split; nia.
  - exists 0%Q. repeat split; unfold Qle; simpl; lia.
Qed.

Ltac close_one :=
  solve [ lia | intros; lia | intros; discriminate | repeat split
        | simpl; lia | reflexivity ].

Section CallFacts.

Variable transport : nat -> request -> exchange.

Lemma body_summarized resubmit endpoint method data w :
  (forall w1, summarized true (request_for w1 endpoint method data) (resubmit w1) w1) ->
  summarized false (request_for w endpoint method data)
    (_make_request_body transport resubmit endpoint method data w) w.
Proof.
  intros Hre o w' E. split; [|discriminate].
  unfold _make_request_body, session_request in E. cbv zeta in E.
  change (request_for (incr_requests w) endpoint method data)
    with (request_for w endpoint method data) in E.
  set (req := request_for w endpoint method data) in *.
  assert (One : forall (ex : exchange) (o0 : outcome json) (de : Z),
    (0 <= de <= 1) ->
    (forall e, o0 = Raise e -> is_Exception e = true -> de = 1) ->
    forall w1, same_config (self w) (self w1) ->
      log w1 = (req, ex) :: log w ->
      requests (stats (self w1)) = requests (stats (self w)) + 1 ->
      errors (stats (self w1)) = errors (stats (self w)) + de ->
      call_summary req w o0 w1).
  { intros ex o0 de Hde Hr w1 Hc Hl Hn He. split; [exact Hc|].
    split; [exists [(req, ex)]; repeat split; auto; simpl; lia|].
    repeat split; try lia. intros e H1 H2. specialize (Hr e H1 H2). lia. }
  assert (Handled : forall (ex : exchange) (o1 : outcome json) (w1 : world),
    same_config (self w) (self w1) ->
    log w1 = (req, ex) :: log w ->
    requests (stats (self w1)) = requests (stats (self w)) + 1 ->
    errors (stats (self w1)) = errors (stats (self w)) ->
    except_Exception (now w) (Some (o1, w1)) = Some (o, w') ->
    call_summary req w o w').
  { intros ex [v|e] w1 Hc Hl Hn He H; simpl in H.
    - injection H as <- <-.
      apply (One ex _ 0); [lia|intros; discriminate|exact Hc|exact Hl|exact Hn|lia].
    - destruct (is_Exception e) eqn:X; injection H as <- <-.
      + apply (One ex _ 1); [lia|reflexivity|exact Hc|exact Hl|exact Hn|simpl; lia].
      + apply (One ex _ 0); [lia| |exact Hc|exact Hl|exact Hn|lia].
        intros e0 [= <-] H. congruence. }
  destruct (transport _ req) as [d e|d resp] eqn:Ex.
  - refine (Handled _ _ _ _ _ _ _ E); close_one.
  - destruct (status resp =? 429) eqn:S429.
    + destruct (retry_after_of resp) as [[n|e]|] eqn:Ra; [| |discriminate].
      * unfold asyncio_sleep in E.
        destruct (sleep_overflows (inject_Z n)).
        { refine (Handled _ _ _ _ _ _ _ E); close_one. }
        match type of E with except_Exception _ (resubmit ?x) = _ =>
          set (w2 := x) in * end.
        assert (Hq : request_for w2 endpoint method data = req) by reflexivity.
        pose proof (Hre w2) as H2. rewrite Hq in H2.
        assert (S0 : call_summary req w (Return JNull) w2).
        { apply (One (Replied d resp) _ 0); close_one. }
        destruct (resubmit w2) as [[[v|e] w3]|]; simpl in E; try discriminate.
        -- injection E as <- <-. destruct (H2 _ _ eq_refl) as [S2 _].
           eapply call_summary_trans; [exact S0|reflexivity|reflexivity|exact S2].
        -- destruct (H2 _ _ eq_refl) as [S2 _].
           pose proof (call_summary_trans _ _ _ _ _ _ _ S0 eq_refl eq_refl S2) as S3.
           destruct (is_Exception e) eqn:X; injection E as <- <-; [|exact S3].
           destruct S3 as (C3 & (n3 & L3 & F3 & R3) & E3 & B3 & X3).
           destruct S2 as (_ & _ & _ & B2 & _).
           split; [exact C3|]. split; [exists n3; repeat split; auto|].
           simpl. simpl in B2. specialize (X3 e eq_refl X). repeat split; lia.
      * refine (Handled _ _ _ _ _ _ _ E); close_one.
    + destruct (400 <=? status resp);
        refine (Handled _ _ _ _ _ _ _ E); close_one.
Qed.

Lemma retrying_summarized fuel : forall attempt_number endpoint method data w,
  summarized true (request_for w endpoint method data)
    (retrying transport fuel attempt_number endpoint method data w) w.
Proof.
  induction fuel as [|fuel IH]; intros a endpoint method data w o w' E;
    [discriminate|].
  simpl in E.
  pose proof (body_summarized (retrying transport fuel 1%nat endpoint method data)
                endpoint method data w (fun w1 => IH _ _ _ _ w1)) as B.
  destruct (_make_request_body _ _ _ _ _ w) as [[[v|e] w1]|]; simpl in E;
    try discriminate.
  - simplify_eq. destruct (B _ _ eq_refl) as [S _]. split; [exact S|discriminate].
  - destruct (B _ _ eq_refl) as [S1 _].
    destruct (retry_if_exception_type e) eqn:T.
    + destruct (stop_after_attempt 3 a).
      * simplify_eq. split; [|intros _ e0 [= <-]; reflexivity].
        destruct S1 as (C & N & E1 & B1 & X).
        split; [exact C|]. split; [exact N|]. split; [exact E1|].
        split; [exact B1|]. intros e0 [= <-] _.
        apply (X e eq_refl). apply retried_is_Exception. exact T.
      * rewrite backoff_sleep in E. set (s := slept _ w1) in E.
        assert (Q : request_for s endpoint method data
                    = request_for w endpoint method data).
        { destruct S1 as ((U & _) & _). unfold request_for. simpl. rewrite U.
          reflexivity. }
        apply IH in E. rewrite Q in E. destruct E as [S2 N2].
        split; [|exact N2].
        eapply call_summary_trans; [exact S1| | |exact S2]; reflexivity.
    + simplify_eq. split; [exact S1|]. intros _ e0 [= <-]. exact T.
Qed.

(** X1: an exception that leaves [_make_request] is never of the family
    the decorator retries.  The caller does not see a bare
    [aiohttp.ClientError], [ClientResponseError] or timeout: such an
    exception has either been retried away or arrives inside
    [RetryError]. *)
Theorem surfaced_exception_not_of_retried_family fuel endpoint method data w e w' :
  _make_request transport fuel endpoint method data w = Some (Raise e, w') ->
  retry_if_exception_type e = false
  /\ match e with
     | ClientError _ | TimeoutError | ClientResponseError _ _ => False
     | _ => True
     end.
Proof.
  intros E. destruct (retrying_summarized _ _ _ _ _ _ _ _ E) as [_ N].
  specialize (N eq_refl e eq_refl). split; [exact N|].
  destruct e; try exact I; discriminate.
Qed.

(** X2: whatever happens during a call (backoff retries, rate-limit
    resubmissions, failures), every exchange it performs carries the same
    method, URL and payload, at least one exchange is performed, and the
    configuration of the client is left as it was. *)
Theorem every_attempt_sends_the_same_request fuel endpoint method data w o w' :
  _make_request transport fuel endpoint method data w = Some (o, w') ->
  exists new,
    log w' = new ++ log w
    /\ new <> []
    /\ Forall (fun entry => entry.1 = request_for w endpoint method data) new
    /\ base_url (self w') = base_url (self w)
    /\ timeout (self w') = timeout (self w)
    /\ max_retries (self w') = max_retries (self w)
    /\ retry_delay (self w') = retry_delay (self w)
    /\ api_key (self w') = api_key (self w).
Proof.
  intros E.
  destruct (retrying_summarized _ _ _ _ _ _ _ _ E)
    as [((U & T & M & D & K) & (new & L & F & R) & _) _].
  destruct (retrying_settled _ _ _ _ _ _ _ _ _ E)
    as (last & earlier & (L' & _) & _).
  assert (last :: earlier = new) as <-
    by (rewrite L in L'; eapply app_inv_tail; eauto).
  exists (last :: earlier). repeat split; auto.
Qed.

(** X3: over a call, [errors] never decreases, it grows by at most as
    much as [requests], and by at least one when the call ends with an
    exception that is an instance of [Exception]; an exception that is not,
    a cancellation for instance, goes past the handler that counts. *)
Theorem errors_grow_with_requests fuel endpoint method data w o w' :
  _make_request transport fuel endpoint method data w = Some (o, w') ->
  errors (stats (self w)) <= errors (stats (self w'))
  /\ errors (stats (self w')) - errors (stats (self w))
     <= requests (stats (self w')) - requests (stats (self w))
  /\ (forall e, o = Raise e -> is_Exception e = true ->
        errors (stats (self w)) + 1 <= errors (stats (self w'))).
Proof.
  intros E.
  destruct (retrying_summarized _ _ _ _ _ _ _ _ E) as [(_ & _ & E1 & B & X) _].
  split; [exact E1|]. split; [exact B|]. exact X.
Qed.

(** X4: the error rate stays a percentage.  If the statistics satisfy
    [0 <= errors <= requests] before a call, as they do after
    [reset_stats], then after the call [error_rate] is a number between 0
    and 100. *)
Theorem error_rate_stays_a_percentage fuel endpoint method data w o w' :
  0 <= errors (stats (self w)) <= requests (stats (self w)) ->
  _make_request transport fuel endpoint method data w = Some (o, w') ->
  exists q,
    error_rate (stats (self w')) = inr q /\ (0 <= q)%Q /\ (q <= 100)%Q.
Proof.
  intros H E.
  destruct (retrying_summarized _ _ _ _ _ _ _ _ E) as [(_ & _ & E1 & B & _) _].
  apply error_rate_percentage. lia.
Qed.

(** The attempt does not read [max_retries] or [retry_delay]. *)
Ltac handled :=
  match goal with
  | Handled : forall o1 w1, _ = _
    |- _ = reconfigured_result _ _ (except_Exception _ (Some (?o1, ?w1))) =>
      exact (Handled o1 w1)
  end.

Lemma body_reconfigured ceiling delay resubmit resubmit' endpoint method data w :
  (forall w1, resubmit' (reconfigured ceiling delay w1)
              = reconfigured_result ceiling delay (resubmit w1)) ->
  _make_request_body transport resubmit' endpoint method data
    (reconfigured ceiling delay w)
  = reconfigured_result ceiling delay
      (_make_request_body transport resubmit endpoint method data w).
Proof.
  intros Hre. unfold _make_request_body, session_request. cbv zeta.
  change (request_for (incr_requests (reconfigured ceiling delay w)) endpoint method data)
    with (request_for (incr_requests w) endpoint method data).
  change (log (incr_requests (reconfigured ceiling delay w)))
    with (log (incr_requests w)).
  assert (Handled : forall (o1 : outcome json) (w1 : world),
    except_Exception (now w) (Some (o1, reconfigured ceiling delay w1))
    = reconfigured_result ceiling delay (except_Exception (now w) (Some (o1, w1)))).
  { intros [v|e] w1; simpl; [reflexivity|]. destruct (is_Exception e); reflexivity. }
  destruct (transport _ _) as [d e|d resp].
  - handled.
  - destruct (status resp =? 429).
    + destruct (retry_after_of resp) as [[n|e]|]; [| |reflexivity].
      * unfold asyncio_sleep. destruct (sleep_overflows (inject_Z n)).
        { handled. }
        match goal with
        | |- _ = reconfigured_result _ _ (except_Exception _ (resubmit ?y)) =>
            change (except_Exception (now w)
                      (resubmit' (reconfigured ceiling delay y))
                    = reconfigured_result ceiling delay
                        (except_Exception (now w) (resubmit y)));
            rewrite (Hre y); destruct (resubmit y) as [[o1 w3]|]
        end; [handled|reflexivity].
      * handled.
    + destruct (400 <=? status resp); handled.
Qed.

Lemma retrying_reconfigured ceiling delay fuel :
  forall attempt_number endpoint method data w,
    retrying transport fuel attempt_number endpoint method data
      (reconfigured ceiling delay w)
    = reconfigured_result ceiling delay
        (retrying transport fuel attempt_number endpoint method data w).
Proof.
  induction fuel as [|fuel IH]; intros a endpoint method data w; [reflexivity|].
  cbn [retrying].
  rewrite (body_reconfigured ceiling delay
             (retrying transport fuel 1%nat endpoint method data)
             (retrying transport fuel 1%nat endpoint method data)
             endpoint method data w (fun w1 => IH _ _ _ _ w1)).
  destruct (_make_request_body _ _ _ _ _ w) as [[[v|e] w1]|]; try reflexivity.
  cbn [reconfigured_result].
  destruct (retry_if_exception_type e); [|reflexivity].
  destruct (stop_after_attempt 3 a); [reflexivity|].
  rewrite !backoff_sleep.
  exact (IH (S a) endpoint method data
           (slept (inject_Z (wait_exponential 1 1 10 a)) w1)).
Qed.

(** X24: the retry settings of the constructor have no effect on a call.
    A client constructed with other values of [max_retries] and
    [retry_delay] performs the same exchanges, returns or raises the same,
    and keeps the same statistics and clock: the decorator does not read
    them. *)
Theorem retry_settings_are_not_read
    (ceiling : Z) (delay : Q) fuel endpoint method data w :
  _make_request transport fuel endpoint method data (reconfigured ceiling delay w)
  = match _make_request transport fuel endpoint method data w with
    | Some (o, w') => Some (o, reconfigured ceiling delay w')
    | None => None
    end.
Proof. apply retrying_reconfigured. Qed.

End CallFacts.

(** *** Scenarios *)

Lemma elapsed_total_app xs ys :
  (elapsed_total (xs ++ ys) == elapsed_total xs + elapsed_total ys)%Q.
Proof.
  induction xs as [|[q ex] xs IH]; simpl; [ring|]. rewrite IH. ring.
Qed.

(** A backoff sleep always moves the clock by the wait itself. *)
Lemma backoff_sleep_clock attempt_number w :
  now (slept (inject_Z (wait_exponential 1 1 10 attempt_number)) w)
  = (now w + inject_Z (wait_exponential 1 1 10 attempt_number))%Q.
Proof.
  unfold slept. simpl.
  assert (H : 1 <= wait_exponential 1 1 10 attempt_number)
    by (unfold wait_exponential; lia).
  destruct (Qle_bool (inject_Z (wait_exponential 1 1 10 attempt_number)) 0) eqn:E;
    [|reflexivity].
  apply Qle_bool_iff in E. unfold Qle in E. simpl in E. lia.
Qed.

Section Scenarios.

Variable transport : nat -> request -> exchange.

Ltac open_body Ex :=
  unfold _make_request_body, session_request; cbv zeta;
  match goal with
  | |- context [request_for (incr_requests ?w) ?e ?m ?d] =>
      change (request_for (incr_requests w) e m d) with (request_for w e m d);
      change (log (incr_requests w)) with (log w)
  end;
  rewrite Ex.

Lemma success_attempt resubmit endpoint method data w d r :
  transport (length (log w)) (request_for w endpoint method data) = Replied d r ->
  is_success_reply (Replied d r) = true ->
  exists w1,
    _make_request_body transport resubmit endpoint method data w
    = Some (Return (payload_of r), w1)
    /\ log w1 = (request_for w endpoint method data, Replied d r) :: log w
    /\ now w1 = (now w + d)%Q
    /\ requests (stats (self w1)) = requests (stats (self w)) + 1
    /\ errors (stats (self w1)) = errors (stats (self w))
    /\ retries (stats (self w1)) = retries (stats (self w))
    /\ (total_time (stats (self w1)) == total_time (stats (self w)) + d)%Q.
Proof.
  intros Ex Hr. open_body Ex.
  simpl in Hr. apply andb_prop in Hr as [Hs Hb].
  assert (H429 : (status r =? 429) = false) by lia.
  assert (H400 : (400 <=? status r) = false) by lia.
  rewrite H429, H400. unfold payload_of.
  destruct (body r) as [| | | | | |kvs]; try discriminate. simpl.
  rewrite Hb. simpl.
  eexists. split; [reflexivity|]. repeat split. simpl. ring.
Qed.

Lemma retried_failure_attempt resubmit endpoint method data w ex :
  transport (length (log w)) (request_for w endpoint method data) = ex ->
  is_retried_failure ex = true ->
  exists e w1,
    _make_request_body transport resubmit endpoint method data w = Some (Raise e, w1)
    /\ retry_if_exception_type e = true
    /\ tracked w w1 (request_for w endpoint method data, ex)
    /\ now w1 = (now w + elapsed_of ex)%Q.
Proof.
  intros Ex Hr. unfold is_retried_failure in Hr.
  destruct ex as [d e|d r].
  - simpl in Hr. rewrite orb_false_r in Hr.
    exists e. open_body Ex. simpl. rewrite (retried_is_Exception e Hr).
    eexists. split; [reflexivity|]. repeat split. exact Hr.
  - simpl is_transient_failure in Hr. rewrite orb_false_l in Hr.
    pose proof (envelope_error_message_http d r Hr) as M.
    unfold generic_http_message in M.
    exists (ClientResponseError (status r) (http_error_message r)).
    open_body Ex.
    simpl in Hr. apply andb_prop in Hr as [Hs _]. apply andb_prop in Hs as [H400 H429].
    apply negb_true_iff in H429. rewrite H429, H400, M. simpl.
    eexists. split; [reflexivity|]. repeat split.
Qed.

(** Failures that the decorator retries, followed by a success, from
    attempt [a] on. *)
Lemma failures_then_success_from endpoint method data d r : forall j a fuel w,
  (a + j <= 3)%nat -> (1 <= a)%nat ->
  (forall i, (i < j)%nat ->
     is_retried_failure (transport (length (log w) + i)%nat
                           (request_for w endpoint method data)) = true) ->
  transport (length (log w) + j)%nat (request_for w endpoint method data)
  = Replied d r ->
  is_success_reply (Replied d r) = true ->
  (j < fuel)%nat ->
  exists w' new,
    retrying transport fuel a endpoint method data w
    = Some (Return (payload_of r), w')
    /\ log w' = new ++ log w
    /\ length new = S j
    /\ requests (stats (self w')) = requests (stats (self w)) + Z.of_nat (S j)
    /\ errors (stats (self w')) = errors (stats (self w)) + Z.of_nat j
    /\ retries (stats (self w')) = retries (stats (self w))
    /\ (now w' == now w + elapsed_total new + inject_Z (backoff_from a j))%Q.
Proof.
  induction j as [|j IH]; intros a fuel w Ha H1 Hfail Hok Hs Hf;
    (destruct fuel as [|fuel]; [lia|]).
  - rewrite Nat.add_0_r in Hok.
    destruct (success_attempt (retrying transport fuel 1%nat endpoint method data)
                _ _ _ _ _ _ Hok Hs) as (w1 & B & L & C & N & E & R & _).
    exists w1, [(request_for w endpoint method data, Replied d r)].
    cbn [retrying]. rewrite B, L, C, N, E, R. simpl.
    repeat split; try lia. ring.
  - pose proof (Hfail O ltac:(lia)) as H0. rewrite Nat.add_0_r in H0.
    destruct (retried_failure_attempt
                (retrying transport fuel 1%nat endpoint method data)
                endpoint method data w _ eq_refl H0)
      as (e & w1 & B & T & K & C).
    set (ex := transport (length (log w)) (request_for w endpoint method data)) in *.
    set (s := slept (inject_Z (wait_exponential 1 1 10 a)) w1).
    assert (Q : request_for s endpoint method data
                = request_for w endpoint method data)
      by (eapply tracked_request; exact K).
    destruct K as (_ & L & N & E & R).
    destruct (IH (S a) fuel s) as (w' & new & G & L' & Hn & N' & E' & R' & C');
      try lia.
    + intros i Hi. rewrite Q. unfold s. simpl log. rewrite L. simpl length.
      replace (S (length (log w)) + i)%nat with (length (log w) + S i)%nat by lia.
      apply Hfail. lia.
    + rewrite Q. unfold s. simpl log. rewrite L. simpl length.
      replace (S (length (log w)) + j)%nat with (length (log w) + S j)%nat by lia.
      exact Hok.
    + exact Hs.
    + exists w', (new ++ [(request_for w endpoint method data, ex)]).
      cbn [retrying]. rewrite B, T.
      assert (St : stop_after_attempt 3 a = false)
        by (unfold stop_after_attempt; apply Nat.leb_gt; lia).
      rewrite St, backoff_sleep. fold s. rewrite G.
      split; [reflexivity|].
      split; [rewrite L'; unfold s; simpl log; rewrite L, <- app_assoc; reflexivity|].
      split; [rewrite length_app, Hn; simpl; lia|].
      unfold s in N', E', R'. simpl in N', E', R'.
      repeat split; try lia.
      rewrite C'. unfold s. rewrite backoff_sleep_clock, C, elapsed_total_app.
      cbn [elapsed_total backoff_from snd]. rewrite inject_Z_plus. ring.
Qed.

(** X5: failures below the ceiling are absorbed.  After [j] exchanges,
    [j] at most 2, that each end in a network error, a timeout or an HTTP
    error reply, a success makes the call return its payload.  The call
    then counts [j + 1] requests and [j] errors, and it lasted the time of
    its exchanges plus the exponential backoff: nothing for [j = 0], one
    second for [j = 1], one plus two seconds for [j = 2]. *)
Theorem failures_below_the_ceiling_are_absorbed endpoint method data d r j fuel w :
  (j <= 2)%nat ->
  (forall i, (i < j)%nat ->
     is_retried_failure (transport (length (log w) + i)%nat
                           (request_for w endpoint method data)) = true) ->
  transport (length (log w) + j)%nat (request_for w endpoint method data)
  = Replied d r ->
  is_success_reply (Replied d r) = true ->
  (j < fuel)%nat ->
  exists w' new,
    _make_request transport fuel endpoint method data w
    = Some (Return (payload_of r), w')
    /\ log w' = new ++ log w
    /\ length new = S j
    /\ requests (stats (self w')) = requests (stats (self w)) + Z.of_nat (S j)
    /\ errors (stats (self w')) = errors (stats (self w)) + Z.of_nat j
    /\ retries (stats (self w')) = retries (stats (self w))
    /\ (now w' == now w + elapsed_total new
                 + match j with O => 0 | 1%nat => 1 | _ => 3 end)%Q.
Proof.
  intros Hj Hfail Hok Hs Hf.
  destruct (failures_then_success_from endpoint method data d r j 1 fuel w)
    as (w' & new & G & L & Hn & N & E & R & C); try lia; auto.
  exists w', new. repeat split; auto.
  rewrite C. destruct j as [|[|[|j]]]; try lia; vm_compute backoff_from; reflexivity.
Qed.

(** X6: a successful first exchange.  The call returns the [data] entry
    of the envelope, or the whole envelope when it has none; it counts one
    request and no error, and the duration of the exchange is added to
    [total_time] once. *)
Theorem success_returns_data_or_envelope endpoint method data w fuel d r :
  transport (length (log w)) (request_for w endpoint method data) = Replied d r ->
  is_success_reply (Replied d r) = true ->
  (1 <= fuel)%nat ->
  exists w' kvs,
    body r = JObj kvs
    /\ _make_request transport fuel endpoint method data w
       = Some (Return (match dict_lookup "data" kvs with
                       | Some v => v
                       | None => JObj kvs
                       end), w')
    /\ log w' = (request_for w endpoint method data, Replied d r) :: log w
    /\ requests (stats (self w')) = requests (stats (self w)) + 1
    /\ errors (stats (self w')) = errors (stats (self w))
    /\ retries (stats (self w')) = retries (stats (self w))
    /\ (total_time (stats (self w')) == total_time (stats (self w)) + d)%Q.
Proof.
  intros Ex Hs Hf. destruct fuel as [|fuel]; [lia|].
  destruct (success_attempt (retrying transport fuel 1%nat endpoint method data)
              _ _ _ _ _ _ Ex Hs) as (w1 & B & L & C & N & E & R & T).
  assert (K : exists kvs, body r = JObj kvs).
  { simpl in Hs. apply andb_prop in Hs as [_ Hb].
    destruct (body r); try discriminate. eauto. }
  destruct K as [kvs K]. exists w1, kvs. split; [exact K|].
  unfold _make_request. cbn [retrying]. rewrite B.
  unfold payload_of. rewrite K. auto 10.
Qed.

(** X7: the wait after a rate-limit reply.  The first reply is a 429
    whose body could be decoded, whatever it holds, and whose [Retry-After]
    is absent or is an ASCII integer literal; it reads [n], and [n] is below
    the bound from which a delay no longer fits a float.  When the second
    reply is a success, the call returns the payload and has lasted the two
    exchanges plus [n] seconds (nothing when [n] is not positive); with no
    [Retry-After] header at all, [n] is 60. *)
Theorem rate_limit_wait_is_slept endpoint method data w fuel d1 r1 n d2 r2 :
  transport (length (log w)) (request_for w endpoint method data) = Replied d1 r1 ->
  status r1 = 429 ->
  retry_after_of r1 = Some (Return n) ->
  n < float_overflow_bound ->
  transport (S (length (log w))) (request_for w endpoint method data)
  = Replied d2 r2 ->
  is_success_reply (Replied d2 r2) = true ->
  (2 <= fuel)%nat ->
  exists w',
    _make_request transport fuel endpoint method data w
    = Some (Return (payload_of r2), w')
    /\ (now w' == now w + d1 + inject_Z (Z.max 0 n) + d2)%Q
    /\ retries (stats (self w')) = retries (stats (self w)) + 1
    /\ (headers_get "Retry-After" (headers r1) = None -> n = 60).
Proof.
  intros Ex1 S1 Ra Hn Ex2 Hs Hf. destruct fuel as [|[|fuel]]; try lia.
  destruct (body_rate_limited transport
              (retrying transport (S fuel) 1%nat endpoint method data)
              _ _ _ _ _ _ _ Ex1 S1 Ra (sleep_overflows_below n Hn))
    as (w1 & B & L & C & R & N & E & Q).
  assert (Ex2' : transport (length (log w1)) (request_for w1 endpoint method data)
                 = Replied d2 r2) by (rewrite Q, L; exact Ex2).
  destruct (success_attempt (retrying transport fuel 1%nat endpoint method data)
              _ _ _ _ _ _ Ex2' Hs) as (w2 & B2 & L2 & C2 & N2 & E2 & R2 & _).
  exists w2. unfold _make_request.
  assert (G2 : retrying transport (S fuel) 1%nat endpoint method data w1
               = Some (Return (payload_of r2), w2))
    by (apply retrying_return; exact B2).
  rewrite G2 in B. simpl in B.
  split; [apply retrying_return; exact B|]. split.
  - rewrite C2, C.
    destruct (Qle_bool (inject_Z n) 0) eqn:Qn.
    + apply Qle_bool_iff in Qn. unfold Qle in Qn. simpl in Qn.
      replace (Z.max 0 n) with 0 by lia. ring.
    + assert (0 < n).
      { destruct (Z_lt_le_dec 0 n) as [|Hle]; [assumption|].
        assert (Qle_bool (inject_Z n) 0 = true)
          by (apply Qle_bool_iff; unfold Qle; simpl; lia).
        congruence. }
      replace (Z.max 0 n) with n by lia. ring.
  - split; [lia|]. intros Hh. unfold retry_after_of in Ra. rewrite Hh in Ra.
    congruence.
Qed.

(** X23: a wait that does not fit a float.  When a 429 announces an
    integer number of seconds of [float_overflow_bound] or more,
    [asyncio.sleep] raises [OverflowError] as it adds the delay to the clock
    of the loop: nothing is slept, nothing is resubmitted and [retries] does
    not move; the handler counts one error and the exception reaches the
    caller. *)
Theorem oversized_retry_after_raises_overflow endpoint method data w fuel d r n :
  transport (length (log w)) (request_for w endpoint method data) = Replied d r ->
  status r = 429 ->
  retry_after_of r = Some (Return n) ->
  float_overflow_bound <= n ->
  (1 <= fuel)%nat ->
  exists w',
    _make_request transport fuel endpoint method data w
    = Some (Raise OverflowError, w')
    /\ log w' = (request_for w endpoint method data, Replied d r) :: log w
    /\ now w' = (now w + d)%Q
    /\ requests (stats (self w')) = requests (stats (self w)) + 1
    /\ errors (stats (self w')) = errors (stats (self w)) + 1
    /\ retries (stats (self w')) = retries (stats (self w)).
Proof.
  intros Ex S Ra Hn Hf. destruct fuel as [|fuel]; [lia|].
  unfold _make_request. cbn [retrying]. open_body Ex. rewrite S, Ra.
  unfold asyncio_sleep. rewrite (sleep_overflows_from n Hn). simpl.
  eexists. split; [reflexivity|]. repeat split.
Qed.

(** X8: an exception of the transport outside the retried family reaches
    the caller at once, after one exchange and without backoff.  When it is
    an instance of [Exception], such as the [ValueError] of a body that is
    not JSON, one error is counted and the duration of the exchange is added
    to [total_time] once.  When it is not, such as the [CancelledError] of a
    call that is cancelled during the exchange, it goes past the handler:
    [errors] and [total_time] are left as they were. *)
Theorem other_transport_exception_passes_through endpoint method data w fuel d e :
  transport (length (log w)) (request_for w endpoint method data) = Failed d e ->
  retry_if_exception_type e = false ->
  (1 <= fuel)%nat ->
  exists w',
    _make_request transport fuel endpoint method data w = Some (Raise e, w')
    /\ log w' = (request_for w endpoint method data, Failed d e) :: log w
    /\ now w' = (now w + d)%Q
    /\ requests (stats (self w')) = requests (stats (self w)) + 1
    /\ retries (stats (self w')) = retries (stats (self w))
    /\ (if is_Exception e
        then errors (stats (self w')) = errors (stats (self w)) + 1
             /\ (total_time (stats (self w')) == total_time (stats (self w)) + d)%Q
        else errors (stats (self w')) = errors (stats (self w))
             /\ total_time (stats (self w')) = total_time (stats (self w))).
Proof.
  intros Ex T Hf. destruct fuel as [|fuel]; [lia|].
  unfold _make_request. cbn [retrying]. open_body Ex. simpl.
  destruct (is_Exception e); rewrite T;
    (eexists; split; [reflexivity|]); repeat split. simpl. ring.
Qed.

(** X9: an envelope of the wrong shape.  When the body of a reply other
    than a 429 is not a dictionary, or when its [error] entry is looked into
    and is not a dictionary, the call raises [AttributeError]
    on that value instead of an HTTP or API error; this holds for error
    statuses too, and the request is not retried. *)
Theorem wrong_shape_raises_attribute_error endpoint method data w fuel d r v :
  transport (length (log w)) (request_for w endpoint method data) = Replied d r ->
  status r <> 429 ->
  unreadable_part r = Some v ->
  (1 <= fuel)%nat ->
  exists w',
    _make_request transport fuel endpoint method data w
    = Some (Raise (AttributeError v), w')
    /\ log w' = (request_for w endpoint method data, Replied d r) :: log w
    /\ errors (stats (self w')) = errors (stats (self w)) + 1
    /\ retries (stats (self w')) = retries (stats (self w)).
Proof.
  intros Ex S U Hf. destruct fuel as [|fuel]; [lia|].
  assert (H429 : (status r =? 429) = false) by lia.
  unfold _make_request. cbn [retrying]. open_body Ex. rewrite H429.
  unfold unreadable_part in U. unfold envelope_error_message.
  destruct (400 <=? status r) eqn:H400;
    destruct (body r) as [| | | | | |kvs]; simpl in U; simplify_eq; simpl;
    try (eexists; split; [reflexivity|]; repeat split; fail).
  - destruct (dict_lookup "error" kvs) as [[| | | | | |ekvs]|]; simplify_eq; simpl;
      eexists; (split; [reflexivity|]); repeat split.
  - destruct (truthy match dict_lookup "success" kvs with
                     | Some v0 => v0
                     | None => JBool true
                     end); simpl in U; [discriminate|]. simpl.
    destruct (dict_lookup "error" kvs) as [[| | | | | |ekvs]|]; simplify_eq; simpl;
      eexists; (split; [reflexivity|]); repeat split.
Qed.

(** X10: a failure envelope without a message.  A reply with a status
    below 400 whose [success] entry is falsy and whose [error] entry is
    absent, or has no [message], raises the API error with the text
    ["Unknown API error"]; it is not retried. *)
Theorem missing_message_is_unknown_api_error endpoint method data w fuel d r :
  transport (length (log w)) (request_for w endpoint method data) = Replied d r ->
  is_unexplained_api_error (Replied d r) = true ->
  (1 <= fuel)%nat ->
  exists w',
    _make_request transport fuel endpoint method data w
    = Some (Raise (RuntimeError "API Error: " (JStr "Unknown API error")), w')
    /\ log w' = (request_for w endpoint method data, Replied d r) :: log w
    /\ errors (stats (self w')) = errors (stats (self w)) + 1
    /\ retries (stats (self w')) = retries (stats (self w)).
Proof.
  intros Ex U Hf. destruct fuel as [|fuel]; [lia|].
  simpl in U. apply andb_prop in U as [Hs U].
  assert (H429 : (status r =? 429) = false) by lia.
  assert (H400 : (400 <=? status r) = false) by lia.
  unfold _make_request. cbn [retrying]. open_body Ex. rewrite H429, H400.
  unfold envelope_error_message.
  destruct (body r) as [| | | | | |kvs]; try discriminate.
  apply andb_prop in U as [Hf' He]. simpl.
  destruct (truthy match dict_lookup "success" kvs with
                   | Some v => v
                   | None => JBool true
                   end); [discriminate|]. simpl.
  destruct (dict_lookup "error" kvs) as [[| | | | | |ekvs]|]; try discriminate; simpl.
  - destruct (dict_lookup "message" ekvs); [discriminate|]. simpl.
    eexists. split; [reflexivity|]. repeat split.
  - eexists. split; [reflexivity|]. repeat split.
Qed.

End Scenarios.

(** *** Time never goes backwards *)

Lemma sleep_not_negative (delay : Q) :
  (0 <= (if Qle_bool delay 0 then 0 else delay))%Q.
Proof.
  destruct (Qle_bool delay 0) eqn:E; [lra|].
  destruct (Qlt_le_dec 0 delay) as [H|H]; [lra|].
  apply Qle_bool_iff in H. congruence.
Qed.

Section TimeFacts.

Variable transport : nat -> request -> exchange.
Hypothesis exchanges_take_time : forall n req, (0 <= elapsed_of (transport n req))%Q.

Lemma except_Exception_advancing start r w :
  (start <= now w)%Q -> advancing r w -> advancing (except_Exception start r) w.
Proof.
  intros Hs H o w' E. destruct r as [[[v|e] w1]|]; simpl in E; try discriminate.
  - apply (H _ _ E).
  - destruct (is_Exception e); [|apply (H _ _ E)].
    injection E as <- <-. destruct (H _ _ eq_refl) as [N T].
    split; simpl in *; lra.
Qed.

Lemma body_advancing resubmit endpoint method data w :
  (forall w1, advancing (resubmit w1) w1) ->
  advancing (_make_request_body transport resubmit endpoint method data w) w.
Proof.
  intros Hre. unfold _make_request_body.
  apply (except_Exception_advancing (now w) _ w); [lra|].
  unfold session_request. cbv zeta.
  set (req := request_for (incr_requests w) endpoint method data).
  pose proof (exchanges_take_time (length (log (incr_requests w))) req) as Hd.
  destruct (transport _ req) as [d e|d resp] eqn:Ex; simpl in Hd.
  - intros o w' E. injection E as <- <-. split; simpl; lra.
  - destruct (status resp =? 429).
    + destruct (retry_after_of resp) as [[n|e]|]; [| |discriminate].
      * unfold asyncio_sleep. destruct (sleep_overflows (inject_Z n)).
        -- intros o w' E. injection E as <- <-. split; simpl; lra.
        -- intros o w' E. apply Hre in E. destruct E as [N T].
           pose proof (sleep_not_negative (inject_Z n)) as Hn.
           split; simpl in *; lra.
      * intros o w' E. injection E as <- <-. split; simpl; lra.
    + destruct (400 <=? status resp);
        intros o w' E; injection E as <- <-; split; simpl; lra.
Qed.

Lemma retrying_advancing fuel : forall attempt_number endpoint method data w,
  advancing (retrying transport fuel attempt_number endpoint method data w) w.
Proof.
  induction fuel as [|fuel IH]; intros a endpoint method data w o w' E;
    [discriminate|].
  simpl in E.
  pose proof (body_advancing (retrying transport fuel 1%nat endpoint method data)
                endpoint method data w (fun w1 => IH _ _ _ _ w1)) as B.
  destruct (_make_request_body _ _ _ _ _ w) as [[[v|e] w1]|]; simpl in E;
    try discriminate.
  - simplify_eq. apply (B _ _ eq_refl).
  - destruct (B _ _ eq_refl) as [N1 T1].
    destruct (retry_if_exception_type e).
    + destruct (stop_after_attempt 3 a).
      * simplify_eq. split; assumption.
      * rewrite backoff_sleep in E. apply IH in E. destruct E as [N2 T2].
        pose proof (sleep_not_negative (inject_Z (wait_exponential 1 1 10 a))) as Hs.
        split; simpl in *; lra.
    + simplify_eq. split; assumption.
Qed.

(** X20: time never goes backwards.  When no exchange takes a negative
    time, a call leaves the clock and [total_time] at least where they
    were; in particular [total_time] stays non-negative once it is. *)
Theorem total_time_never_decreases fuel endpoint method data w o w' :
  _make_request transport fuel endpoint method data w = Some (o, w') ->
  (now w <= now w')%Q
  /\ (total_time (stats (self w)) <= total_time (stats (self w')))%Q
  /\ ((0 <= total_time (stats (self w)))%Q ->
      (0 <= total_time (stats (self w')))%Q).
Proof.
  intros E. destruct (retrying_advancing _ _ _ _ _ _ _ _ E) as [N T].
  repeat split; try assumption. intros H. lra.
Qed.

End TimeFacts.

(** * Properties of the construction and of the other operations *)

Lemma append_String c (a b : string) : (String c a ++ b = String c (a ++ b))%string.
Proof. reflexivity. Qed.

Lemma append_empty (s : string) : (s ++ "")%string = s.
Proof.
  induction s as [|c s IH]; [reflexivity|]. rewrite append_String, IH. reflexivity.
Qed.

Lemma string_app_assoc (a b c : string) :
  ((a ++ b) ++ c = a ++ (b ++ c))%string.
Proof.
  induction a as [|x a IH]; [reflexivity|]. rewrite !append_String, IH. reflexivity.
Qed.

Lemma rstrip_slash_spec (s : string) :
  last_char (rstrip_slash s) <> Some "/"%char
  /\ exists n, s = (rstrip_slash s ++ slashes n)%string.
Proof.
  induction s as [|c s [IH1 [n IH2]]]; simpl.
  - split; [discriminate|]. exists O. reflexivity.
  - destruct (rstrip_slash s) as [|k kept] eqn:R.
    + destruct (Ascii.eqb c "/") eqn:C.
      * apply Ascii.eqb_eq in C. subst c. split; [discriminate|].
        exists (S n). simpl in *. rewrite IH2 at 1. reflexivity.
      * split.
        -- simpl. intros [= ->]. discriminate.
        -- exists n. simpl in *. rewrite IH2 at 1. reflexivity.
    + split.
      * exact IH1.
      * exists n. simpl. rewrite IH2 at 1. reflexivity.
Qed.

Lemma last_char_slashes (s : string) n :
  last_char (s ++ slashes (S n)) = Some "/"%char.
Proof.
  induction s as [|c s IH].
  - induction n as [|n IHn]; [reflexivity|]. simpl in *. exact IHn.
  - rewrite append_String. cbn [last_char].
    destruct (s ++ slashes (S n))%string eqn:E; [|exact IH].
    destruct s; discriminate.
Qed.

(** X11: the constructor strips the trailing slashes of the base address
    and nothing else: the stored [base_url] does not end with a slash and
    the given address is the stored one followed by slashes only.  The
    statistics of a new client are all zero. *)
Theorem new_client_base_url_is_stripped
    (address : string) (timeout max_retries : Z) (retry_delay : Q)
    (api_key : option string) :
  let c := KnowledgeGraphAdvancedClient_new address timeout max_retries
             retry_delay api_key in
  last_char (base_url c) <> Some "/"%char
  /\ (exists n, address = (base_url c ++ slashes n)%string)
  /\ (last_char address <> Some "/"%char -> base_url c = address)
  /\ stats c = {| requests := 0; errors := 0; total_time := 0%Q; retries := 0 |}.
Proof.
  cbn zeta. simpl base_url. simpl stats.
  destruct (rstrip_slash_spec address) as [H1 [n H2]].
  repeat split; [exact H1|exists n; exact H2|].
  intros H. destruct n as [|n].
  - simpl in H2. rewrite append_empty in H2. symmetry. exact H2.
  - exfalso. apply H. rewrite H2. apply last_char_slashes.
Qed.

(** X12: the [Authorization] header is sent exactly when an API key that
    is not empty was given, and then reads ["Bearer <key>"]; the three
    fixed headers are sent in every case. *)
Theorem authorization_header_needs_a_key (api_key : option string) :
  dict_lookup "Authorization" (session_headers api_key)
  = match api_key with
    | Some (String a k) => Some (JStr ("Bearer " ++ String a k))
    | _ => None
    end
  /\ dict_lookup "Content-Type" (session_headers api_key)
     = Some (JStr "application/json")
  /\ dict_lookup "X-MCP-Version" (session_headers api_key) = Some (JStr "2024-11-05")
  /\ dict_lookup "User-Agent" (session_headers api_key)
     = Some (JStr "KnowledgeGraph-Advanced-Python-Client/1.0.0").
Proof. destruct api_key as [[|a k]|]; repeat split. Qed.

Lemma join_cons sep x y rest :
  join sep (x :: y :: rest) = (x ++ sep ++ join sep (y :: rest))%string.
Proof. reflexivity. Qed.

(** A separator inside an element cannot be told from a separator between
    two elements. *)
Lemma join_splits_element sep (pre : list string) a b post :
  join sep (pre ++ (a ++ sep ++ b)%string :: post) = join sep (pre ++ a :: b :: post).
Proof.
  induction pre as [|x pre IH].
  - simpl app. rewrite join_cons. destruct post as [|y post].
    + reflexivity.
    + rewrite !join_cons, !string_app_assoc. reflexivity.
  - destruct pre as [|y pre].
    + simpl app in *. rewrite !join_cons, IH. reflexivity.
    + change ((x :: y :: pre) ++ ?l) with (x :: y :: (pre ++ l)).
      rewrite !join_cons. change (y :: (pre ++ ?l)) with ((y :: pre) ++ l).
      rewrite IH. reflexivity.
Qed.

(** X13: [get_entities] without filters.  An empty list of sources or of
    types gives the same endpoint as an omitted one, and with both omitted
    the endpoint is the path followed by the four mandatory parameters in
    the order role, min_occurrence, limit, sort_by. *)
Theorem get_entities_without_filters
    (role : string) (min_occurrence limit : Z) (sort_by : string) :
  (forall types,
      get_entities_endpoint role min_occurrence limit sort_by (Some []) types
      = get_entities_endpoint role min_occurrence limit sort_by None types)
  /\ (forall sources,
      get_entities_endpoint role min_occurrence limit sort_by sources (Some [])
      = get_entities_endpoint role min_occurrence limit sort_by sources None)
  /\ get_entities_endpoint role min_occurrence limit sort_by None None
     = ("/entities?role=" ++ role ++ "&min_occurrence=" ++ str_int min_occurrence
        ++ "&limit=" ++ str_int limit ++ "&sort_by=" ++ sort_by)%string.
Proof. repeat split. Qed.

(** X14: the filters of [get_entities] are not escaped.  A source whose
    name contains a comma yields the same endpoint, hence the same request,
    as the two sources obtained by cutting the name at that comma. *)
Theorem get_entities_does_not_escape_commas
    (role : string) (min_occurrence limit : Z) (sort_by : string)
    (pre : list string) (a b : string) (post : list string)
    (types : option (list string)) :
  get_entities_endpoint role min_occurrence limit sort_by
    (Some (pre ++ (a ++ "," ++ b)%string :: post)) types
  = get_entities_endpoint role min_occurrence limit sort_by
      (Some (pre ++ a :: b :: post)) types.
Proof.
  unfold get_entities_endpoint. f_equal. f_equal. f_equal. f_equal.
  unfold append_if_truthy.
  assert (T : forall l : list string, l <> [] -> truthy (of_str_list (Some l)) = true).
  { intros [|x l] H; [congruence|reflexivity]. }
  rewrite !T by (destruct pre; discriminate).
  rewrite join_splits_element. reflexivity.
Qed.

(** X15: the payload of [process_knowledge] always carries the text, the
    source, the two flags and a conversation date: the given date when it is
    not empty, the current time in ISO format followed by ["Z"] otherwise.
    The batch identifier is sent exactly when it is given and not empty. *)
Theorem process_knowledge_payload_is_complete
    (isoformat : Q -> string) (clock : Q) (text source : string)
    (thread_id date : option string) (concepts dedup : bool)
    (batch_id : option string) :
  let data := process_knowledge_data isoformat clock text source thread_id date
                concepts dedup batch_id in
  dict_lookup "text" data = Some (JStr text)
  /\ dict_lookup "source" data = Some (JStr source)
  /\ dict_lookup "include_concepts" data = Some (JBool concepts)
  /\ dict_lookup "deduplicate" data = Some (JBool dedup)
  /\ dict_lookup "conversation_date" data
     = Some (JStr match date with
                  | Some (String a s) => String a s
                  | _ => (isoformat clock ++ "Z")%string
                  end)
  /\ dict_lookup "processing_batch_id" data
     = match batch_id with
       | Some (String a s) => Some (JStr (String a s))
       | _ => None
       end.
Proof.
  destruct thread_id as [[|a s]|], date as [[|b d]|], batch_id as [[|e f]|];
    repeat split.
Qed.

(** * Further properties of the batch dispatcher *)

Section BatchOrder.

Context {A V E : Type}.
Variable str : E -> string.
Variable processor : A -> nat -> nat * @Batch.completion V E.

Local Open Scope nat_scope.



Lemma rounds_keep_inv (c : nat) (items : list A) n :
  loop_inv str processor c items
    (Nat.iter n (Batch.round str processor) (Batch.created c items)).
Proof.
  induction n as [|n IH]; [apply created_inv|].
  rewrite Nat.iter_succ. apply round_inv. exact IH.
Qed.

(** X18: operations are started in the order of the input.  After any
    number of rounds, under any limit, the calls made to [processor] so far
    are the first items with their indices, in order, and the tasks still
    waiting for the semaphore are the remaining ones. *)
Theorem operations_start_in_input_order (c : nat) (items : list A) (n : nat) :
  let st := Nat.iter n (Batch.round str processor) (Batch.created c items) in
  Batch.calls st `prefix_of` Batch.enumerate items
  /\ Batch.calls st ++ Batch.waiters st = Batch.enumerate items
  /\ length (Batch.tasks st) = length (Batch.calls st).
Proof.
  cbn zeta. destruct (rounds_keep_inv c items n) as [_ R C].
  split; [eexists; symmetry; exact C|]. split; [exact C|].
  apply (f_equal length) in R. apply (f_equal length) in C.
  rewrite length_app, !length_fmap in R. rewrite length_app in C. lia.
Qed.

Lemma wake_up_all queue : forall value,
  length queue <= value ->
  exists value' started,
    Batch.wake_up str processor value queue = (value', [], started, queue).
Proof.
  induction queue as [|[item index] rest IH]; intros value H.
  - eexists _, _. reflexivity.
  - destruct value as [|value']; [simpl in H; lia|].
    cbn [Batch.wake_up]. destruct (processor item index) as [[|k] r].
    + destruct (IH (S value')) as (v & s & ->); [simpl in H; lia|].
      eexists _, _. reflexivity.
    + destruct (IH value') as (v & s & ->); [simpl in H; lia|].
      eexists _, _. reflexivity.
Qed.

(** X19: with a limit that is at least the number of items nobody waits:
    the first round starts every operation. *)
Theorem wide_limit_starts_every_operation (c : nat) (items : list A) :
  length items <= c ->
  let st := Batch.round str processor (Batch.created c items) in
  Batch.waiters st = [] /\ Batch.calls st = Batch.enumerate items.
Proof.
  intros H. cbn zeta. unfold Batch.round, Batch.created. cbn.
  destruct (wake_up_all (Batch.enumerate items) (c + 0)) as (v & s & ->).
  - unfold Batch.enumerate. rewrite length_imap. lia.
  - split; reflexivity.
Qed.

End BatchOrder.

(** *** The further properties on the sample inputs *)

Lemma surfaced_exception_not_of_retried_family_witness :
  exists w',
    _make_request always_timeout 3 "/health" "GET" None fresh_world
    = Some (Raise (RetryError TimeoutError), w')
    /\ retry_if_exception_type (RetryError TimeoutError) = false
    /\ True.
Proof.
  eexists. split; [vm_compute; reflexivity|].
  eapply (surfaced_exception_not_of_retried_family always_timeout 3 "/health" "GET"
            None fresh_world (RetryError TimeoutError)).
  vm_compute. reflexivity.
Defined.

Lemma every_attempt_sends_the_same_request_witness :
  exists o w',
    _make_request rate_limited_once 5 "/health" "GET" None fresh_world = Some (o, w')
    /\ exists new,
         log w' = new ++ log fresh_world
         /\ new <> []
         /\ Forall (fun entry => entry.1 = request_for fresh_world "/health" "GET" None)
              new
         /\ base_url (self w') = base_url (self fresh_world)
         /\ timeout (self w') = timeout (self fresh_world)
         /\ max_retries (self w') = max_retries (self fresh_world)
         /\ retry_delay (self w') = retry_delay (self fresh_world)
         /\ api_key (self w') = api_key (self fresh_world).
Proof.
  eexists _, _. split; [vm_compute; reflexivity|].
  apply (every_attempt_sends_the_same_request rate_limited_once 5 "/health" "GET" None
           fresh_world (Return (JStr "healthy"))).
  vm_compute. reflexivity.
Defined.

Lemma errors_grow_with_requests_witness :
  exists o w',
    _make_request always_timeout 3 "/stats" "GET" None fresh_world = Some (o, w')
    /\ errors (stats (self fresh_world)) <= errors (stats (self w'))
    /\ errors (stats (self w')) - errors (stats (self fresh_world))
       <= requests (stats (self w')) - requests (stats (self fresh_world))
    /\ (forall e, o = Raise e -> is_Exception e = true ->
          errors (stats (self fresh_world)) + 1 <= errors (stats (self w'))).
Proof.
  eexists _, _. split; [vm_compute; reflexivity|].
  apply (errors_grow_with_requests always_timeout 3 "/stats" "GET" None fresh_world).
  vm_compute. reflexivity.
Defined.

Lemma error_rate_stays_a_percentage_witness :
  exists o w',
    _make_request flaky_twice 5 "/stats" "GET" None fresh_world = Some (o, w')
    /\ exists q,
         error_rate (stats (self w')) = inr q /\ (0 <= q)%Q /\ (q <= 100)%Q.
Proof.
  eexists _, _. split; [vm_compute; reflexivity|].
  apply (error_rate_stays_a_percentage flaky_twice 5 "/stats" "GET" None fresh_world
           (Return (JStr "healthy"))); [simpl; lia|].
  vm_compute. reflexivity.
Defined.

Lemma failures_below_the_ceiling_are_absorbed_witness :
  exists w' new,
    _make_request flaky_twice 3 "/stats" "GET" None fresh_world
    = Some (Return (payload_of ok_reply), w')
    /\ log w' = new ++ log fresh_world
    /\ length new = 3%nat
    /\ requests (stats (self w')) = requests (stats (self fresh_world)) + Z.of_nat 3
    /\ errors (stats (self w')) = errors (stats (self fresh_world)) + Z.of_nat 2
    /\ retries (stats (self w')) = retries (stats (self fresh_world))
    /\ (now w' == now fresh_world + elapsed_total new + 3)%Q.
Proof.
  apply (failures_below_the_ceiling_are_absorbed flaky_twice "/stats" "GET" None
           1 ok_reply 2 3 fresh_world).
  - lia.
  - intros [|[|i]] Hi; [reflexivity|reflexivity|lia].
  - reflexivity.
  - reflexivity.
  - lia.
Defined.

Lemma success_returns_data_or_envelope_witness :
  exists w' kvs,
    body ok_reply = JObj kvs
    /\ _make_request healthy_server 1 "/health" "GET" None fresh_world
       = Some (Return (match dict_lookup "data" kvs with
                       | Some v => v
                       | None => JObj kvs
                       end), w')
    /\ log w' = (request_for fresh_world "/health" "GET" None, Replied 1 ok_reply)
                :: log fresh_world
    /\ requests (stats (self w')) = requests (stats (self fresh_world)) + 1
    /\ errors (stats (self w')) = errors (stats (self fresh_world))
    /\ retries (stats (self w')) = retries (stats (self fresh_world))
    /\ (total_time (stats (self w')) == total_time (stats (self fresh_world)) + 1)%Q.
Proof.
  apply (success_returns_data_or_envelope healthy_server "/health" "GET" None
           fresh_world 1 1 ok_reply); [reflexivity | reflexivity | lia].
Defined.

Lemma rate_limit_wait_is_slept_witness :
  exists w',
    _make_request rate_limited_once 2 "/health" "GET" None fresh_world
    = Some (Return (payload_of ok_reply), w')
    /\ (now w' == now fresh_world + 1 + inject_Z (Z.max 0 2) + 1)%Q
    /\ retries (stats (self w')) = retries (stats (self fresh_world)) + 1
    /\ (headers_get "Retry-After" [("Retry-After", "2")]%string = None -> 2 = 60).
Proof.
  apply (rate_limit_wait_is_slept rate_limited_once "/health" "GET" None fresh_world 2
           1 {| status := 429; headers := [("Retry-After", "2")]%string;
                body := JObj [] |} 2 1 ok_reply);
    [reflexivity | reflexivity | reflexivity | vm_compute; reflexivity
    | reflexivity | reflexivity | lia].
Defined.

Lemma other_transport_exception_passes_through_witness :
  exists w',
    _make_request cancelling_transport 1 "/health" "GET" None fresh_world
    = Some (Raise CancelledError, w')
    /\ log w' = (request_for fresh_world "/health" "GET" None,
                 Failed 2 CancelledError) :: log fresh_world
    /\ now w' = (now fresh_world + 2)%Q
    /\ requests (stats (self w')) = requests (stats (self fresh_world)) + 1
    /\ retries (stats (self w')) = retries (stats (self fresh_world))
    /\ errors (stats (self w')) = errors (stats (self fresh_world))
    /\ total_time (stats (self w')) = total_time (stats (self fresh_world)).
Proof.
  apply (other_transport_exception_passes_through cancelling_transport "/health" "GET"
           None fresh_world 1 2 CancelledError);
    [reflexivity | reflexivity | lia].
Defined.

Lemma oversized_retry_after_raises_overflow_witness :
  exists w',
    _make_request endless_rate_limiter 1 "/health" "GET" None fresh_world
    = Some (Raise OverflowError, w')
    /\ log w' = (request_for fresh_world "/health" "GET" None,
                 Replied 1 endless_rate_limit) :: log fresh_world
    /\ now w' = (now fresh_world + 1)%Q
    /\ requests (stats (self w')) = requests (stats (self fresh_world)) + 1
    /\ errors (stats (self w')) = errors (stats (self fresh_world)) + 1
    /\ retries (stats (self w')) = retries (stats (self fresh_world)).
Proof.
  apply (oversized_retry_after_raises_overflow endless_rate_limiter "/health" "GET"
           None fresh_world 1 1 endless_rate_limit (10 ^ 309));
    [reflexivity | reflexivity | vm_compute; reflexivity | vm_compute; discriminate
    | lia].
Defined.

Lemma wrong_shape_raises_attribute_error_witness :
  exists w',
    _make_request terse_server 1 "/entities" "GET" None fresh_world
    = Some (Raise (AttributeError (JStr "Not found")), w')
    /\ log w' = (request_for fresh_world "/entities" "GET" None,
                 Replied 4 string_error_reply) :: log fresh_world
    /\ errors (stats (self w')) = errors (stats (self fresh_world)) + 1
    /\ retries (stats (self w')) = retries (stats (self fresh_world)).
Proof.
  apply (wrong_shape_raises_attribute_error terse_server "/entities" "GET" None
           fresh_world 1 4 string_error_reply (JStr "Not found"));
    [reflexivity | discriminate | reflexivity | lia].
Defined.

Lemma missing_message_is_unknown_api_error_witness :
  exists w',
    _make_request laconic_server 1 "/stats" "GET" None fresh_world
    = Some (Raise (RuntimeError "API Error: " (JStr "Unknown API error")), w')
    /\ log w' = (request_for fresh_world "/stats" "GET" None,
                 Replied 5 bare_failure_reply) :: log fresh_world
    /\ errors (stats (self w')) = errors (stats (self fresh_world)) + 1
    /\ retries (stats (self w')) = retries (stats (self fresh_world)).
Proof.
  apply (missing_message_is_unknown_api_error laconic_server "/stats" "GET" None
           fresh_world 1 5 bare_failure_reply); [reflexivity | reflexivity | lia].
Defined.

Lemma total_time_never_decreases_witness :
  exists o w',
    _make_request flaky_twice 5 "/stats" "GET" None fresh_world = Some (o, w')
    /\ (now fresh_world <= now w')%Q
    /\ (total_time (stats (self fresh_world)) <= total_time (stats (self w')))%Q
    /\ ((0 <= total_time (stats (self fresh_world)))%Q ->
        (0 <= total_time (stats (self w')))%Q).
Proof.
  eexists _, _. split; [vm_compute; reflexivity|].
  apply (total_time_never_decreases flaky_twice) with (fuel := 5%nat)
    (endpoint := "/stats"%string) (method := "GET"%string) (data := None)
    (o := Return (JStr "healthy")).
  - intros [|[|n]] req; unfold Qle; simpl; lia.
  - vm_compute. reflexivity.
Defined.


Lemma wide_limit_starts_every_operation_witness :
  Batch.waiters (Batch.round id sample_processor (Batch.created 5 sample_items)) = []
  /\ Batch.calls (Batch.round id sample_processor (Batch.created 5 sample_items))
     = Batch.enumerate sample_items.
Proof.
  apply (wide_limit_starts_every_operation id sample_processor 5 sample_items).
  vm_compute. lia.
Defined.
